(** * Weather-aware property search: taxonomy, weather fetcher, filtered pagination

    Shallow embedding of
    - [lib/weather]   : [WeatherGroups], [matchesWeatherGroup], [getWeatherGroupLabel]
    - [lib/openMeteo] : [cacheKey], [fetchWeather], [fetchWeatherForProperties]
    - [lib/utils]     : [parseNumber], [clamp], [parseWeatherGroups]
    - [use-cases/getProperties] : the request handler.

    JavaScript numbers are embedded as rationals [Q]: every finite double is a
    rational, and [Math.max], [Math.min], [Math.floor], comparisons,
    [Set.has] and [toFixed] are exact on doubles.  The products
    [(page - 1) * take] and [page * take] are taken exactly in [Q], where the
    code rounds them to a double: the two agree for a whole page number whose
    product with [take] is at most 2^53 ([wholePage]), and the theorems that
    depend on these products are stated for such pages.  The non-finite
    values ([NaN], [Infinity]) only arise from [Number(string)] and are
    discarded at once by [parseNumber]; they are the constructors [NaN] and
    [Inf] of [JSNum]. *)

From Stdlib Require Import ZArith QArith Qround Qabs List String Ascii Bool Lia.
From Stdlib Require Import DecimalString DecimalN.
Import ListNotations.

Open Scope string_scope.
Open Scope Z_scope.

(** ** lib/weather *)

Module Weather.

(** [WeatherGroups]: the object literal, in key insertion order. *)
Definition WeatherGroups : list (string * list Z) :=
  [ ("clear",   [0]);
    ("cloudy",  [1; 2; 3]);
    ("drizzle", [51; 52; 53; 54; 55; 56; 57]);
    ("rainy",   [61; 62; 63; 64; 65; 66; 67; 80; 81; 82]);
    ("snow",    [71; 72; 73; 74; 75; 76; 77; 85; 86]) ].

(** [Object.keys(WeatherGroups)]. *)
Definition WEATHER_GROUP_KEYS : list string := map fst WeatherGroups.

(** [Array.prototype.includes] on strings. *)
Definition includes (xs : list string) (x : string) : bool :=
  existsb (String.eqb x) xs.

(** [Set.prototype.has] for a set of integers queried with a number. *)
Definition has (s : list Z) (code : Q) : bool :=
  existsb (fun c => Qeq_bool code (inject_Z c)) s.

(** [WeatherGroups[g]]: property lookup; [None] is [undefined]. *)
Fixpoint lookupGroup (tbl : list (string * list Z)) (g : string) : option (list Z) :=
  match tbl with
  | [] => None
  | (k, s) :: rest => if String.eqb g k then Some s else lookupGroup rest g
  end.

(** [WeatherGroups[g].has(code)].  The callers only pass keys of
    [WeatherGroups] (see [lookupGroup_keys]); on [undefined] the source would
    throw, which no caller can reach. *)
Definition groupHas (g : string) (code : Q) : bool :=
  match lookupGroup WeatherGroups g with
  | Some s => has s code
  | None => false
  end.

(** [matchesWeatherGroup(code, groups)]; [code = None] stands for
    [null]/[undefined], [groups = None] for an absent argument. *)
Definition matchesWeatherGroup (code : option Q) (groups : option (list string)) : bool :=
  match groups with
  | None => true
  | Some [] => true
  | Some gs =>
      let validGroups := filter (includes WEATHER_GROUP_KEYS) gs in
      match validGroups with
      | [] => true
      | _ =>
          match code with
          | None => false
          | Some c => existsb (fun g => groupHas g c) validGroups
          end
      end
  end.

(** The [for .. of WEATHER_GROUP_KEYS] loop of [getWeatherGroupLabel]. *)
Fixpoint firstGroupWith (keys : list string) (code : Q) : option string :=
  match keys with
  | [] => None
  | group :: rest => if groupHas group code then Some group else firstGroupWith rest code
  end.

Definition getWeatherGroupLabel (code : option Q) : option string :=
  match code with
  | None => None
  | Some c => firstGroupWith WEATHER_GROUP_KEYS c
  end.

(** The relation the prose uses: [code] belongs to the code set of the
    group named [g]. *)
Definition belongs (code : Q) (g : string) : Prop :=
  exists s z, In (g, s) WeatherGroups /\ In z s /\ code == inject_Z z.

End Weather.

(** ** JavaScript values used at the boundary *)

(** A JavaScript number as [Number(..)] may produce it. *)
Inductive JSNum : Type :=
| Fin (q : Q)
| NaN
| Inf (negative : bool).

(** A value of [req.query.<name>] (the handler passes it on as [any]). *)
Inductive QueryValue : Type :=
| QAbsent                       (* undefined *)
| QStr (s : string)
| QArr (items : list string)
| QNum (n : JSNum).

(** [Math.max] and [Math.min] on finite numbers. *)
Definition Math_max (a b : Q) : Q := if Qle_bool a b then b else a.
Definition Math_min (a b : Q) : Q := if Qle_bool a b then a else b.

(** [a < b] on finite numbers. *)
Definition Qltb (a b : Q) : bool := negb (Qle_bool b a).

(** [ToIntegerOrInfinity]: truncation towards zero. *)
Definition Qtrunc (q : Q) : Z := if Qle_bool 0 q then Qfloor q else Qceiling q.

(** ** String built-ins *)

Definition isSpace (c : ascii) : bool :=
  match nat_of_ascii c with
  | 9%nat | 10%nat | 11%nat | 12%nat | 13%nat | 32%nat => true
  | _ => false
  end.

Fixpoint trimStart (s : string) : string :=
  match s with
  | EmptyString => EmptyString
  | String c r => if isSpace c then trimStart r else s
  end.

Fixpoint trimEnd (s : string) : string :=
  match s with
  | EmptyString => EmptyString
  | String c r =>
      let r' := trimEnd r in
      if isSpace c && String.eqb r' "" then "" else String c r'
  end.

(** [String.prototype.trim] (ASCII white space). *)
Definition trim (s : string) : string := trimEnd (trimStart s).

(** [s.split(sep)] for a one-character separator. *)
Fixpoint split (sep : ascii) (s : string) : list string :=
  match s with
  | EmptyString => [""]
  | String c r =>
      if Ascii.eqb c sep then "" :: split sep r
      else match split sep r with
           | h :: t => String c h :: t
           | [] => [String c ""]
           end
  end.

(** Truthiness of a string, as [filter(Boolean)] and [if (s)] use it. *)
Definition truthyStr (s : string) : bool := negb (String.eqb s "").

(** ** lib/utils *)

Module Utils.

Section WithToNumber.

(** [Number(s)] for a string [s]: the ECMAScript string-to-number
    conversion, taken as given. *)
Variable ToNumber : string -> JSNum.

(** [Number.isFinite(n) ? n : undefined]. *)
Definition finiteOrUndefined (n : JSNum) : option Q :=
  match n with
  | Fin q => Some q
  | _ => None
  end.

Definition parseNumber (q : QueryValue) : option Q :=
  match q with
  | QStr s =>
      if negb (String.eqb (trim s) "") then finiteOrUndefined (ToNumber s)
      else None
  | QNum n => finiteOrUndefined n
  | _ => None
  end.

End WithToNumber.

Definition clamp (n min max : Q) : Q := Math_max min (Math_min max n).

(** Falsiness of the raw [weather] parameter ([!raw]). *)
Definition falsy (raw : QueryValue) : bool :=
  match raw with
  | QAbsent => true
  | QStr s => String.eqb s ""
  | QArr _ => false
  | QNum (Fin q) => Qeq_bool q 0
  | QNum NaN => true
  | QNum (Inf _) => false
  end.

(** [parseWeatherGroups(raw)].  [None]: the call throws ([raw.split] is not
    a function), which can only happen outside the declared parameter type
    [string | string[] | null]. *)
Definition parseWeatherGroups (raw : QueryValue) : option (list string) :=
  if falsy raw then Some []
  else
    match raw with
    | QArr arr => Some (filter (Weather.includes Weather.WEATHER_GROUP_KEYS) arr)
    | QStr s =>
        let arr := filter truthyStr (map trim (split "," s)) in
        Some (filter (Weather.includes Weather.WEATHER_GROUP_KEYS) arr)
    | _ => None
    end.

End Utils.

(** ** Collaborators and the state they share *)

(** The part of the Open-Meteo response body the code reads.  A field is
    [None] when it is missing or not of the type the code tests for. *)
Record CurrentWeather : Type := mkCurrentWeather {
  cw_temperature : option Q;
  cw_weathercode : option Q
}.

Record Hourly : Type := mkHourly {
  time : option (list string);
  relativehumidity_2m : option (list (option Q))
}.

Record RawData : Type := mkRawData {
  current_weather : option CurrentWeather;
  hourly : option Hourly
}.

(** A row of the [property] table. *)
Record Property : Type := mkProperty {
  p_id : Z;
  p_lat : option Q;
  p_lng : option Q;
  p_name : string;
  p_city : string;
  p_state : string
}.

(** The Prisma [where] clause: [{}] or the three-way [contains] on the
    search text. *)
Definition Where : Type := option string.

(** What the handler takes from its environment. *)
Record Env : Type := mkEnv {
  (** [Number(s)] on a string. *)
  ToNumber : string -> JSNum;
  (** [Number::toString]. *)
  NumberToString : Q -> string;
  (** [Date.parse]; [None] is [NaN]. *)
  DateParse : string -> option Z;
  (** [Date.now()] and [new Date().toISOString()]; one request is taken to
      happen at one instant. *)
  now : Z;
  nowISO : string;
  (** [axios.get] on the forecast endpoint: the response body, or the
      message of the error it rejects with. *)
  upstream : Q -> Q -> string + RawData;
  (** [prisma.property.count] and [prisma.property.findMany]. *)
  dbCount : Where -> Z;
  dbFindMany : Where -> Q -> Z -> list Property
}.

(** ** lib/openMeteo *)

Module OpenMeteo.

Record WeatherResult : Type := mkWeatherResult {
  temperature : option Q;
  weathercode : option Q;
  humidity : option Q;
  fetchedAt : option string
}.

Definition CACHE_ROUND_DIGITS : nat := 4.

(** The decimal digits of a natural number (["0"] for zero). *)
Definition digitsOf (n : N) : string := NilZero.string_of_uint (N.to_uint n).

Fixpoint zeros (k : nat) : string :=
  match k with
  | O => ""
  | S k' => String "0" (zeros k')
  end.

(** The integer [n] for which [n / 10^f - x] is as close to zero as
    possible, the larger one on a tie ([x >= 0]). *)
Definition nearestScaled (f : nat) (x : Q) : N :=
  Z.to_N (Qfloor (x * inject_Z (10 ^ Z.of_nat f) + (1 # 2))).

(** Steps 9-10 of [Number.prototype.toFixed]: the digits of [n] padded to
    at least [f + 1] characters, with a point before the last [f]. *)
Definition fixedDigits (f : nat) (n : N) : string :=
  let m := digitsOf n in
  let k := String.length m in
  let m := if (k <=? f)%nat then zeros (f + 1 - k) ++ m else m in
  let k := String.length m in
  match f with
  | O => m
  | _ => substring 0 (k - f) m ++ "." ++ substring (k - f) f m
  end.

(** The process-wide state: the live entries of the node-cache instance
    (most recent first) and, for observation, the upstream requests and the
    datastore queries issued so far. *)
Inductive DbCall : Type :=
| Count (w : Where)
| FindMany (w : Where) (skip : Q) (take : Z).

Record World : Type := mkWorld {
  cache : list (string * WeatherResult);
  upstreamCalls : list (Q * Q);
  dbCalls : list DbCall
}.

(** [cache.get(key)]. *)
Fixpoint cacheGet (c : list (string * WeatherResult)) (key : string) : option WeatherResult :=
  match c with
  | [] => None
  | (k, v) :: rest => if String.eqb key k then Some v else cacheGet rest key
  end.

(** [cache.set(key, result)]. *)
Definition cacheSet (w : World) (key : string) (r : WeatherResult) : World :=
  mkWorld ((key, r) :: cache w) (upstreamCalls w) (dbCalls w).

Definition logUpstream (w : World) (lat lng : Q) : World :=
  mkWorld (cache w) ((upstreamCalls w ++ [(lat, lng)])%list) (dbCalls w).

Definition logDb (w : World) (c : DbCall) : World :=
  mkWorld (cache w) (upstreamCalls w) (dbCalls w ++ [c])%list.

(** What a fetch request and its answer carry. *)
Record PropRef : Type := mkPropRef {
  r_id : Z;
  r_lat : Q;
  r_lng : Q
}.

Record PropWeather : Type := mkPropWeather {
  w_id : Z;
  w_lat : Q;
  w_lng : Q;
  weather : option WeatherResult;
  weatherError : option string
}.

Section WithEnv.

Variable E : Env.

(** [x.toFixed(f)] for a finite [x]. *)
Definition toFixed (f : nat) (x : Q) : string :=
  let s := if Qltb x 0 then "-" else "" in
  let ax := Qabs x in
  if Qle_bool (inject_Z (10 ^ 21)) ax then s ++ NumberToString E ax
  else s ++ fixedDigits f (nearestScaled f ax).

Definition cacheKey (lat lng : Q) : string :=
  toFixed CACHE_ROUND_DIGITS lat ++ "," ++ toFixed CACHE_ROUND_DIGITS lng.

(** [Date.parse(s)], retried with ["Z"] appended when it gives [NaN]. *)
Definition parseTime (s : string) : option Z :=
  match DateParse E s with
  | Some t => Some t
  | None => DateParse E (s ++ "Z")
  end.

(** [diff < bestDiff], where [None] is [Infinity]. *)
Definition ltBest (diff : Z) (bestDiff : option Z) : bool :=
  match bestDiff with
  | None => true
  | Some b => diff <? b
  end.

(** The [for] loop over [times], from index [i] on, threading [bestIdx]
    and [bestDiff]. *)
Fixpoint nearestLoop (times : list string) (i : nat) (bestIdx : nat) (bestDiff : option Z)
  : nat * option Z :=
  match times with
  | [] => (bestIdx, bestDiff)
  | s :: rest =>
      match parseTime s with
      | None => nearestLoop rest (S i) bestIdx bestDiff
      | Some t =>
          let diff := Z.abs (now E - t) in
          if ltBest diff bestDiff
          then nearestLoop rest (S i) i (Some diff)
          else nearestLoop rest (S i) bestIdx bestDiff
      end
  end.

(** The inner [try] block of [fetchWeather]: the nearest hourly humidity. *)
Definition extractHumidity (data : RawData) : option Q :=
  let times := match hourly data with
               | Some h => match time h with Some t => t | None => [] end
               | None => []
               end in
  let hums := match hourly data with
              | Some h => match relativehumidity_2m h with Some t => t | None => [] end
              | None => []
              end in
  if negb (List.length times =? 0)%nat && negb (List.length hums =? 0)%nat
     && (List.length times =? List.length hums)%nat
  then
    let bestIdx := fst (nearestLoop times 0 0 None) in
    match nth_error hums bestIdx with
    | Some (Some h) => Some h
    | _ => None
    end
  else None.

(** [fetchWeather(lat, lng)]: [inl] is the message of the error thrown. *)
Definition fetchWeather (w : World) (lat lng : Q) : (string + WeatherResult) * World :=
  let key := cacheKey lat lng in
  match cacheGet (cache w) key with
  | Some cached => (inr cached, w)
  | None =>
      let w := logUpstream w lat lng in
      match upstream E lat lng with
      | inr data =>
          let cw := current_weather data in
          let temperature := match cw with Some c => cw_temperature c | None => None end in
          let weathercode := match cw with Some c => cw_weathercode c | None => None end in
          let humidity := extractHumidity data in
          let result := mkWeatherResult temperature weathercode humidity (Some (nowISO E)) in
          (inr result, cacheSet w key result)
      | inl message =>
          (inl ("OpenMeteo fetch failed for " ++ NumberToString E lat ++ ","
                ++ NumberToString E lng ++ ": " ++ message), w)
      end
  end.

(** The body of the task given to [limit]: how one entry is built from the
    way its [fetchWeather] call settled. *)
Definition settle (p : PropRef) (outcome : string + WeatherResult) : PropWeather :=
  match outcome with
  | inr weather => mkPropWeather (r_id p) (r_lat p) (r_lng p) (Some weather) None
  | inl message => mkPropWeather (r_id p) (r_lat p) (r_lng p) None (Some message)
  end.

(** [fetchWeatherForProperties(props)]: [Promise.all] over the tasks, which
    p-limit starts in input order.  The tasks are run one after the other,
    the schedule of a limit of one; under a larger limit calls overlap, and
    a call may then miss a cache entry that a call still in flight is about
    to write.  The result array is in input order whatever the schedule,
    and each entry is [settle] of its request and of the way its own call
    settled.  The overlapping runs, under any limit and any order of
    arrival of the responses, are [Concurrent.fetchWeatherForProperties];
    under a limit of one they are this function ([concurrent_limit_one]). *)
Fixpoint fetchWeatherForProperties (w : World) (props : list PropRef)
  : list PropWeather * World :=
  match props with
  | [] => ([], w)
  | p :: rest =>
      let (outcome, w1) := fetchWeather w (r_lat p) (r_lng p) in
      let (entries, w2) := fetchWeatherForProperties w1 rest in
      (settle p outcome :: entries, w2)
  end.

(** How each [fetchWeather] call of [fetchWeatherForProperties] settles. *)
Fixpoint fetchOutcomes (w : World) (props : list PropRef) : list (string + WeatherResult) :=
  match props with
  | [] => []
  | p :: rest =>
      let (outcome, w1) := fetchWeather w (r_lat p) (r_lng p) in
      outcome :: fetchOutcomes w1 rest
  end.

End WithEnv.

End OpenMeteo.

(** ** use-cases/getProperties *)

Module GetProperties.

Import OpenMeteo.

Record Request : Type := mkRequest {
  q_searchText : QueryValue;
  q_tempMin : QueryValue;
  q_tempMax : QueryValue;
  q_humMin : QueryValue;
  q_humMax : QueryValue;
  q_take : QueryValue;
  q_page : QueryValue;
  q_weather : QueryValue
}.

(** The values the handler computes before it touches the datastore. *)
Record Criteria : Type := mkCriteria {
  tempMin : option Q;
  tempMax : option Q;
  humMin : option Q;
  humMax : option Q;
  take : Z;
  page : Q;
  weatherGroups : list string;
  where_ : Where
}.

(** An element of [data]: a table row as it is, or a row with its weather
    attached ([base] is [None] when [idToProp.get] finds nothing). *)
Inductive Row : Type :=
| Plain (p : Property)
| WithWeather (base : option Property) (weather : option WeatherResult)
              (weatherGroup : option string) (weatherError : option string).

Inductive Response : Type :=
| Json (data : list Row) (page : Q) (take : Z) (total : Z) (hasNextPage : bool)
| InternalServerError.

Definition BATCH_SIZE : nat := 200.

(** [Array.prototype.slice(start, end)]. *)
Definition slice {A : Type} (l : list A) (start end_ : Q) : list A :=
  let len := Z.of_nat (List.length l) in
  let rel (s : Q) := let r := Qtrunc s in
                     if r <? 0 then Z.max (len + r) 0 else Z.min r len in
  let k := rel start in
  let final := rel end_ in
  firstn (Z.to_nat (final - k)) (skipn (Z.to_nat k) l).

(** [new Map(dbBatch.map(p => [p.id, p])).get(id)]: the last row with that
    id wins. *)
Fixpoint idToPropGet (dbBatch : list Property) (id : Z) : option Property :=
  match dbBatch with
  | [] => None
  | p :: rest =>
      match idToPropGet rest id with
      | Some q => Some q
      | None => if p_id p =? id then Some p else None
      end
  end.

(** [dbBatch.filter(..).map(..)]: the rows with numeric coordinates, as
    fetch requests. *)
Fixpoint toFetchOf (dbBatch : list Property) : list PropRef :=
  match dbBatch with
  | [] => []
  | p :: rest =>
      match p_lat p, p_lng p with
      | Some lat, Some lng => mkPropRef (p_id p) lat lng :: toFetchOf rest
      | _, _ => toFetchOf rest
      end
  end.

(** [typeof bound === "number" && (typeof v !== "number" || v < bound)]. *)
Definition belowMin (bound v : option Q) : bool :=
  match bound with
  | None => false
  | Some b => match v with None => true | Some x => Qltb x b end
  end.

Definition aboveMax (bound v : option Q) : bool :=
  match bound with
  | None => false
  | Some b => match v with None => true | Some x => Qltb b x end
  end.

Section WithEnv.

Variable E : Env.

Definition orElse (o : option Q) (d : Q) : Q :=
  match o with Some q => q | None => d end.

(** Lines 9-43 of the handler.  [None]: [parseWeatherGroups] threw. *)
Definition normalize (req : Request) : option Criteria :=
  let searchText := match q_searchText req with
                    | QStr s => Some (trim s)
                    | _ => None
                    end in
  let tempMinRaw := Utils.parseNumber (ToNumber E) (q_tempMin req) in
  let tempMaxRaw := Utils.parseNumber (ToNumber E) (q_tempMax req) in
  let humMinRaw := Utils.parseNumber (ToNumber E) (q_humMin req) in
  let humMaxRaw := Utils.parseNumber (ToNumber E) (q_humMax req) in
  let takeRaw := orElse (Utils.parseNumber (ToNumber E) (q_take req)) 20 in
  let pageRaw := orElse (Utils.parseNumber (ToNumber E) (q_page req)) 1 in
  let tempMin := option_map (fun n => Utils.clamp n (-20) 50) tempMinRaw in
  let tempMax := option_map (fun n => Utils.clamp n (-20) 50) tempMaxRaw in
  let humMin := option_map (fun n => Utils.clamp n 0 100) humMinRaw in
  let humMax := option_map (fun n => Utils.clamp n 0 100) humMaxRaw in
  let take := Z.min (Z.max 1 (Qfloor takeRaw)) 200 in
  let page := Math_max 1 pageRaw in
  match Utils.parseWeatherGroups (q_weather req) with
  | None => None
  | Some weatherGroups =>
      let where_ := match searchText with
                    | Some s => if truthyStr s then Some s else None
                    | None => None
                    end in
      Some (mkCriteria tempMin tempMax humMin humMax take page weatherGroups where_)
  end.

Definition isSome {A : Type} (o : option A) : bool :=
  match o with Some _ => true | None => false end.

Definition hasWeatherFilters (c : Criteria) : bool :=
  isSome (tempMin c) || isSome (tempMax c) || isSome (humMin c) || isSome (humMax c)
  || negb (List.length (weatherGroups c) =? 0)%nat.

(** The callback of [propsWithWeather.filter]. *)
Definition passes (c : Criteria) (p : PropWeather) : bool :=
  match weather p with
  | None => false
  | Some w =>
      if belowMin (tempMin c) (temperature w) then false
      else if aboveMax (tempMax c) (temperature w) then false
      else if belowMin (humMin c) (humidity w) then false
      else if aboveMax (humMax c) (humidity w) then false
      else if negb (List.length (weatherGroups c) =? 0)%nat then
        match weathercode w with
        | None => false
        | Some code =>
            Weather.matchesWeatherGroup (Some code) (Some (weatherGroups c))
        end
      else true
  end.

(** The callback of [batchFiltered.map]. *)
Definition attach (dbBatch : list Property) (p : PropWeather) : Row :=
  let base := idToPropGet dbBatch (w_id p) in
  let code := match weather p with Some w => weathercode w | None => None end in
  WithWeather base (weather p) (Weather.getWeatherGroupLabel code) (weatherError p).

(** The [while] loop of the filtered path; one unit of [fuel] per
    iteration, [None] when it runs out. *)
Fixpoint scan (fuel : nat) (c : Criteria) (w : World) (filtered : list Row)
         (totalChecked : nat) (hasMore : bool) : option (list Row * World) :=
  if hasMore && Qltb (inject_Z (Z.of_nat (List.length filtered)))
                     (page c * inject_Z (take c))
  then
    match fuel with
    | O => None
    | S fuel' =>
        let skip := inject_Z (Z.of_nat totalChecked) in
        let dbBatch := dbFindMany E (where_ c) skip (Z.of_nat BATCH_SIZE) in
        let w := logDb w (FindMany (where_ c) skip (Z.of_nat BATCH_SIZE)) in
        if (List.length dbBatch =? 0)%nat then Some (filtered, w)
        else
          let totalChecked := (totalChecked + List.length dbBatch)%nat in
          let toFetch := toFetchOf dbBatch in
          if (List.length toFetch =? 0)%nat
          then scan fuel' c w filtered totalChecked hasMore
          else
            let (propsWithWeather, w) := fetchWeatherForProperties E w toFetch in
            let batchFiltered := filter (passes c) propsWithWeather in
            let mapped := map (attach dbBatch) batchFiltered in
            let filtered := (filtered ++ mapped)%list in
            let hasMore := if (List.length dbBatch <? BATCH_SIZE)%nat then false else hasMore in
            scan fuel' c w filtered totalChecked hasMore
    end
  else Some (filtered, w).

(** Lines 160-172: paginate the accumulator. *)
Definition paginate (c : Criteria) (filtered : list Row) : Response :=
  let total := Z.of_nat (List.length filtered) in
  let start := ((page c - 1) * inject_Z (take c))%Q in
  let end_ := (start + inject_Z (take c))%Q in
  let paginated := slice filtered start end_ in
  Json paginated (page c) (take c) total (Qltb end_ (inject_Z total)).

(** Lines 54-69: plain datastore pagination. *)
Definition fastPath (c : Criteria) (w : World) : Response * World :=
  let total := dbCount E (where_ c) in
  let w := logDb w (Count (where_ c)) in
  let skip := ((page c - 1) * inject_Z (take c))%Q in
  let properties := dbFindMany E (where_ c) skip (take c) in
  let w := logDb w (FindMany (where_ c) skip (take c)) in
  (Json (map Plain properties) (page c) (take c) total
        (Qltb (page c * inject_Z (take c)) (inject_Z total)), w).

(** The handler.  [None]: the loop did not finish within [fuel]
    iterations. *)
Definition getProperties (fuel : nat) (w : World) (req : Request)
  : option (Response * World) :=
  match normalize req with
  | None => Some (InternalServerError, w)
  | Some c =>
      if negb (hasWeatherFilters c) then Some (fastPath c w)
      else
        match scan fuel c w [] 0 true with
        | None => None
        | Some (filtered, w) => Some (paginate c filtered, w)
        end
  end.

End WithEnv.

End GetProperties.

(** ** A concrete environment, for running the model

    An in-memory table stands for the datastore, and small total functions
    stand for the built-ins: decimal literals for [Number(s)], minute-precise
    ISO timestamps (read as UTC) for [Date.parse]. *)

Module Sample.

Import OpenMeteo.

Definition digitVal (c : ascii) : option Z :=
  let n := Z.of_nat (nat_of_ascii c) in
  if (48 <=? n) && (n <=? 57) then Some (n - 48) else None.

(** The value of a non-empty string of decimal digits, after [acc]. *)
Fixpoint digitsValue (s : string) (acc : Z) : option Z :=
  match s with
  | EmptyString => Some acc
  | String c r =>
      match digitVal c with
      | Some d => digitsValue r (10 * acc + d)
      | None => None
      end
  end.

Definition natural (s : string) : option Z :=
  match s with
  | EmptyString => None
  | _ => digitsValue s 0
  end.

(** [Number(s)] on literals [-?digits(.digits)?]; anything else is [NaN]. *)
Definition decimalToNumber (s : string) : JSNum :=
  let s := trim s in
  let (neg, body) := match s with
                     | String "-" r => (true, r)
                     | _ => (false, s)
                     end in
  let v := match split "." body with
           | [i] => option_map inject_Z (natural i)
           | [i; f] =>
               match natural i, natural f with
               | Some a, Some b =>
                   Some (inject_Z a + Qmake b (Pos.of_nat (Nat.pow 10 (String.length f))))%Q
               | _, _ => None
               end
           | _ => None
           end in
  match v with
  | Some q => Fin (if neg then Qopp q else q)
  | None => NaN
  end.

(** Decimal rendering of a rational, to at most 20 fractional digits. *)
Fixpoint fractionDigits (fuel : nat) (num den : Z) : string :=
  match fuel with
  | O => ""
  | S fuel' =>
      if num =? 0 then ""
      else digitsOf (Z.to_N (10 * num / den)) ++ fractionDigits fuel' (10 * num mod den) den
  end.

Definition showNumber (q : Q) : string :=
  let a := Qabs q in
  let i := Qfloor a in
  let num := Qnum a - i * Zpos (Qden a) in
  (if Qltb q 0 then "-" else "") ++ digitsOf (Z.to_N i)
  ++ (if num =? 0 then "" else "." ++ fractionDigits 20 num (Zpos (Qden a))).

(** Days from 1970-01-01 to the civil date [y-m-d]. *)
Definition daysFromCivil (y m d : Z) : Z :=
  let y' := if m <=? 2 then y - 1 else y in
  let era := y' / 400 in
  let yoe := y' - era * 400 in
  let mp := if m <=? 2 then m + 9 else m - 3 in
  let doy := (153 * mp + 2) / 5 + d - 1 in
  let doe := yoe * 365 + yoe / 4 - yoe / 100 + doy in
  era * 146097 + doe - 719468.

(** [Date.parse] on [YYYY-MM-DDTHH:MM] with an optional [Z]; the process
    time zone is UTC. *)
Definition isoParse (s : string) : option Z :=
  let body := substring 0 16 s in
  let tail := substring 16 (String.length s - 16) s in
  if negb (String.eqb tail "" || String.eqb tail "Z") then None
  else if negb (String.eqb (substring 4 1 body) "-" && String.eqb (substring 7 1 body) "-"
                && String.eqb (substring 10 1 body) "T" && String.eqb (substring 13 1 body) ":")
  then None
  else
    match natural (substring 0 4 body), natural (substring 5 2 body),
          natural (substring 8 2 body), natural (substring 11 2 body),
          natural (substring 14 2 body) with
    | Some y, Some m, Some d, Some hh, Some mm =>
        if (1 <=? m) && (m <=? 12) && (1 <=? d) && (d <=? 31) && (hh <=? 23) && (mm <=? 59)
        then Some (((daysFromCivil y m d * 24 + hh) * 60 + mm) * 60000)
        else None
    | _, _, _, _, _ => None
    end.

(** [s] occurs in [t]. *)
Fixpoint contains (t s : string) : bool :=
  String.prefix s t
  || match t with
     | EmptyString => false
     | String _ r => contains r s
     end.

Definition matchesWhere (w : Where) (p : Property) : bool :=
  match w with
  | None => true
  | Some s => contains (p_name p) s || contains (p_city p) s || contains (p_state p) s
  end.

(** The in-memory table: [skip]/[take] over the matching rows in table
    order. *)
Definition tableFindMany (rows : list Property) (w : Where) (skip : Q) (take : Z)
  : list Property :=
  firstn (Z.to_nat take) (skipn (Z.to_nat (Qfloor skip)) (filter (matchesWhere w) rows)).

Definition tableCount (rows : list Property) (w : Where) : Z :=
  Z.of_nat (List.length (filter (matchesWhere w) rows)).

Definition env (rows : list Property) (up : Q -> Q -> string + RawData)
           (nowMs : Z) (iso : string) : Env :=
  mkEnv decimalToNumber showNumber isoParse nowMs iso up
        (tableCount rows) (tableFindMany rows).

Definition emptyWorld : World := mkWorld [] [] [].

(** An upstream that rejects every request. *)
Definition unreachable (lat lng : Q) : string + RawData := inl "timeout of 8000ms exceeded".

(** An upstream that fails at latitude 13 and reports the latitude as the
    temperature elsewhere. *)
Definition flaky (lat lng : Q) : string + RawData :=
  if Qeq_bool lat 13 then inl "Network Error"
  else inr (mkRawData (Some (mkCurrentWeather (Some lat) (Some 0%Q))) None).

(** Three towns: 15 degrees and clear sky, 25 degrees and rain, 12 degrees
    and clear sky, at latitudes 1, 2 and 3. *)
Definition threeTowns (lat lng : Q) : string + RawData :=
  let body t code := inr (mkRawData (Some (mkCurrentWeather (Some t) (Some code))) None) in
  if Qeq_bool lat 1 then body 15%Q 0%Q
  else if Qeq_bool lat 2 then body 25%Q 61%Q
  else if Qeq_bool lat 3 then body 12%Q 0%Q
  else inl "Request failed with status code 400".

Definition row (id : Z) (lat lng : option Q) (name : string) : Property :=
  mkProperty id lat lng name "Springfield" "IL".

(** No table rows, no upstream, the clock at the epoch. *)
Definition offline : Env := env [] unreachable 0 "".

(** A table of one row without coordinates, and [?tempMin=0]. *)
Definition lonelyTable : list Property := [row 1 None None "a"].
Definition lonelyEnv : Env := env lonelyTable unreachable 0 "".
Definition tempMinRequest : GetProperties.Request :=
  GetProperties.mkRequest QAbsent (QStr "0") QAbsent QAbsent QAbsent QAbsent QAbsent QAbsent.

(** [?take=2.5&page=2.5]. *)
Definition halfPageRequest : GetProperties.Request :=
  GetProperties.mkRequest QAbsent QAbsent QAbsent QAbsent QAbsent
                          (QStr "2.5") (QStr "2.5") QAbsent.


(** Page 2 of size 2 over an accumulator of five rows. *)
Definition secondPage : GetProperties.Criteria :=
  GetProperties.mkCriteria None None None None 2 2 [] None.
Definition fiveRows : list GetProperties.Row :=
  map (fun i => GetProperties.Plain (row i None None "a")) [1; 2; 3; 4; 5].

(** The three towns as table rows, and
    [?tempMin=10&tempMax=20&weather=clear&page=1&take=2]. *)
Definition townsEnv : Env :=
  env [row 1 (Some 1%Q) (Some 0%Q) "a"; row 2 (Some 2%Q) (Some 0%Q) "b";
       row 3 (Some 3%Q) (Some 0%Q) "c"]
      threeTowns 0 "2024-03-01T10:00:00.000Z".
Definition mildAndClearRequest : GetProperties.Request :=
  GetProperties.mkRequest QAbsent (QStr "10") (QStr "20") QAbsent QAbsent
                          (QStr "2") (QStr "1") (QStr "clear").

(** Five fetch requests at latitudes 11 to 15. *)
Definition flakyEnv : Env := env [] flaky 0 "2024-03-01T10:00:00.000Z".
Definition fiveRequests : list PropRef :=
  map (fun i => mkPropRef i (inject_Z (10 + i)) 0) [1; 2; 3; 4; 5].

End Sample.

(** ** Notions used in the statements *)

(** Every character of [s] satisfies [P]. *)
Fixpoint allChars (P : ascii -> bool) (s : string) : bool :=
  match s with
  | EmptyString => true
  | String c r => P c && allChars P r
  end.

Definition isDigit (c : ascii) : bool :=
  ((48 <=? nat_of_ascii c) && (nat_of_ascii c <=? 57))%nat.

(** The number a string of decimal digits denotes, leading zeros allowed. *)
Definition backValue (s : string) : option N :=
  option_map N.of_uint (NilEmpty.uint_of_string s).

(** [x] and [y] agree in sign, integer part and the first four decimal
    digits: they differ only beyond the 4th decimal digit. *)
Definition sameTo4Digits (x y : Q) : Prop :=
  Qtrunc (x * 10000) = Qtrunc (y * 10000).

(** Below [10^21] in magnitude, where [toFixed] prints fixed-point digits. *)
Definition small (x : Q) : Prop := (Qabs x < inject_Z (10 ^ 21))%Q.

(** What [toFixed] keeps of a number: whether it is negative, and its
    magnitude rounded to the nearest multiple of [10^-f] (ties upwards) in
    units of [10^-f]. *)
Definition rounded (f : nat) (x : Q) : bool * N :=
  (Qltb x 0, OpenMeteo.nearestScaled f (Qabs x)).

(** The distance of a parsed instant from [Date.now()]. *)
Definition distance (E : Env) (t : Z) : Z := Z.abs (now E - t).

(** [d] is at most the best distance [b] ([None] being infinite). *)
Definition leBest (d : option Z) (b : option Z) : Prop :=
  match b with
  | None => True
  | Some y => match d with Some x => x <= y | None => False end
  end.

(** A response body with the given hourly series. *)
Definition hourlyData (cw : option CurrentWeather) (times : list string)
           (hums : list (option Q)) : RawData :=
  mkRawData cw (Some (mkHourly (Some times) (Some hums))).

(** [typeof hums[i] === "number" ? hums[i] : null]. *)
Definition numberAt (hums : list (option Q)) (i : nat) : option Q :=
  match nth_error hums i with
  | Some (Some h) => Some h
  | _ => None
  end.

(** ** Whole page numbers

    The handler computes [(page - 1) * take], [page * take] and
    [start + take] in double precision; the embedding computes them exactly.
    The two agree when the page is a whole number and the products stay
    within the integers a double holds exactly (up to [2^53]).  Statements
    that turn on this arithmetic are made for such pages. *)

(** [p] is the page of [c]: a whole number from 1 on, with [p * take]
    at most [2^53]. *)
Definition wholePage (c : GetProperties.Criteria) (p : Z) : Prop :=
  1 <= p /\ (GetProperties.page c == inject_Z p)%Q /\ p * GetProperties.take c <= 2 ^ 53.

Module Cases6.


End Cases6.

(** ** Further sample inputs *)

Module Cases.

Import OpenMeteo.

(** [?tempMin=-100&tempMax=80&humMin=-5&humMax=250&take=1000&page=0&weather=snow,hail]. *)
Definition wildRequest : GetProperties.Request :=
  GetProperties.mkRequest QAbsent (QStr "-100") (QStr "80") (QStr "-5") (QStr "250")
                          (QStr "1000") (QStr "0") (QStr "snow,hail").

Definition wildCriteria : GetProperties.Criteria :=
  GetProperties.mkCriteria (Some (-20)%Q) (Some 50%Q) (Some 0%Q) (Some 100%Q)
                           200 1 ["snow"] None.

End Cases.

Module Cases2.

Import OpenMeteo.

(** The three towns as fetch requests, and the world after fetching them
    once. *)
Definition townRequests : list PropRef :=
  [mkPropRef 1 1 0; mkPropRef 2 2 0; mkPropRef 3 3 0].

Definition warmWorld : World :=
  snd (fetchWeatherForProperties Sample.townsEnv Sample.emptyWorld townRequests).

(** Ten past ten on 2024-03-01, and an hourly series around it. *)
Definition tenPastTen : Env :=
  Sample.env [] Sample.unreachable (1709287200000 + 600000) "2024-03-01T10:10:00.000Z".

Definition morningTimes : list string :=
  ["2024-03-01T09:00"; "n/a"; "2024-03-01T10:00"; "2024-03-01T11:00"].

Definition morningHumidities : list (option Q) :=
  [Some 40%Q; Some 45%Q; Some 55%Q; Some 70%Q].

End Cases2.

(** [d] is strictly below the best distance [b] ([None] being infinite). *)
Definition ltBestStrict (d : option Z) (b : option Z) : Prop :=
  match d with
  | None => False
  | Some x => match b with Some y => x < y | None => True end
  end.

Module Cases3.

(** Samples half an hour before and half an hour after the reading. *)
Definition halfPast : Env :=
  Sample.env [] Sample.unreachable (1709287200000 + 1800000) "2024-03-01T10:30:00.000Z".

Definition aroundTimes : list string := ["2024-03-01T10:00"; "2024-03-01T11:00"].

Definition aroundHumidities : list (option Q) := [Some 55%Q; Some 70%Q].

End Cases3.

Module Cases4.

(** The criteria of [?tempMin=10&tempMax=20&weather=clear&page=1&take=2]. *)
Definition mildAndClear : GetProperties.Criteria :=
  GetProperties.mkCriteria (Some 10%Q) (Some 20%Q) None None 2 1 ["clear"] None.

Definition townRows : list Property :=
  [Sample.row 1 (Some 1%Q) (Some 0%Q) "a"; Sample.row 2 (Some 2%Q) (Some 0%Q) "b";
   Sample.row 3 (Some 3%Q) (Some 0%Q) "c"].

(** What one run of the scan over the three towns leaves. *)
Definition scanOutcome : option (list GetProperties.Row * OpenMeteo.World) :=
  GetProperties.scan Sample.townsEnv 1 mildAndClear Sample.emptyWorld [] 0 true.

Definition scanRows : list GetProperties.Row :=
  match scanOutcome with Some (rows, _) => rows | None => [] end.

Definition scanWorld : OpenMeteo.World :=
  match scanOutcome with Some (_, w) => w | None => Sample.emptyWorld end.

End Cases4.

(** ** Notions used in the further statements *)

(** A supplied lower (upper) bound is met by a value that is present. *)
Definition withinMin (bound v : option Q) : Prop :=
  match bound with
  | None => True
  | Some b => exists x, v = Some x /\ (b <= x)%Q
  end.

Definition withinMax (bound v : option Q) : Prop :=
  match bound with
  | None => True
  | Some b => exists x, v = Some x /\ (x <= b)%Q
  end.

(** A row of the filtered response as the criteria want it: the table row
    and the weather are there, there is no fetch error, every supplied bound
    is met, the label is the group of the weather code, and it is one of the
    requested groups when groups were requested. *)
Definition rowSatisfies (c : GetProperties.Criteria) (r : GetProperties.Row) : Prop :=
  match r with
  | GetProperties.WithWeather (Some _) (Some w) g None =>
      withinMin (GetProperties.tempMin c) (OpenMeteo.temperature w)
      /\ withinMax (GetProperties.tempMax c) (OpenMeteo.temperature w)
      /\ withinMin (GetProperties.humMin c) (OpenMeteo.humidity w)
      /\ withinMax (GetProperties.humMax c) (OpenMeteo.humidity w)
      /\ g = Weather.getWeatherGroupLabel (OpenMeteo.weathercode w)
      /\ (GetProperties.weatherGroups c <> [] ->
          exists g', g = Some g' /\ In g' (GetProperties.weatherGroups c))
  | _ => False
  end.

(** The [data] of a response ([[]] for the error response). *)
Definition dataOf (r : GetProperties.Response) : list GetProperties.Row :=
  match r with
  | GetProperties.Json data _ _ _ _ => data
  | GetProperties.InternalServerError => []
  end.

Definition responseOf (o : option (GetProperties.Response * OpenMeteo.World))
  : GetProperties.Response :=
  match o with
  | Some (r, _) => r
  | None => GetProperties.InternalServerError
  end.

(** ** use-cases/getProperties, the variant that answers with a bare array

    It pages the datastore first and filters the page afterwards; the
    [console.warn] about skipped rows is not represented. *)

Module GetPropertiesLean.

Import OpenMeteo.

(** An element of the array: a table row as it is, or a row with
    [weather] and [weatherError] attached. *)
Inductive Row : Type :=
| Plain (p : Property)
| WithWeather (base : option Property) (weather : option WeatherResult)
              (weatherError : option string).

Inductive Response : Type :=
| Json (rows : list Row)
| InternalServerError.

Section WithEnv.

Variable E : Env.

(** The callback of [filtered.map]. *)
Definition attach (properties : list Property) (p : PropWeather) : Row :=
  WithWeather (GetProperties.idToPropGet properties (w_id p)) (weather p) (weatherError p).

Definition getProperties (w : World) (req : GetProperties.Request) : Response * World :=
  match GetProperties.normalize E req with
  | None => (InternalServerError, w)
  | Some c =>
      let skip := ((GetProperties.page c - 1) * inject_Z (GetProperties.take c))%Q in
      let properties := dbFindMany E (GetProperties.where_ c) skip (GetProperties.take c) in
      let w := logDb w (FindMany (GetProperties.where_ c) skip (GetProperties.take c)) in
      if negb (GetProperties.hasWeatherFilters c) then (Json (map Plain properties), w)
      else
        let toFetch := GetProperties.toFetchOf properties in
        if (List.length toFetch =? 0)%nat then (Json [], w)
        else
          let (propsWithWeather, w) := fetchWeatherForProperties E w toFetch in
          let filtered := filter (GetProperties.passes c) propsWithWeather in
          (Json (map (attach properties) filtered), w)
  end.

End WithEnv.

End GetPropertiesLean.

(** A row of the bare array as the criteria want it. *)
Definition leanRowSatisfies (c : GetProperties.Criteria) (r : GetPropertiesLean.Row) : Prop :=
  match r with
  | GetPropertiesLean.WithWeather (Some _) (Some w) None =>
      withinMin (GetProperties.tempMin c) (OpenMeteo.temperature w)
      /\ withinMax (GetProperties.tempMax c) (OpenMeteo.temperature w)
      /\ withinMin (GetProperties.humMin c) (OpenMeteo.humidity w)
      /\ withinMax (GetProperties.humMax c) (OpenMeteo.humidity w)
      /\ (GetProperties.weatherGroups c <> [] ->
          exists g', Weather.getWeatherGroupLabel (OpenMeteo.weathercode w) = Some g'
                     /\ In g' (GetProperties.weatherGroups c))
  | _ => False
  end.

Definition leanRows (r : GetPropertiesLean.Response) : list GetPropertiesLean.Row :=
  match r with
  | GetPropertiesLean.Json rows => rows
  | GetPropertiesLean.InternalServerError => []
  end.

Module Cases5.

(** [?tempMin=10&take=2&page=2] over the three towns: the second page holds
    the third town only. *)
Definition pageTwoRequest : GetProperties.Request :=
  GetProperties.mkRequest QAbsent (QStr "10") QAbsent QAbsent QAbsent
                          (QStr "2") (QStr "2") QAbsent.

Definition pageTwo : GetProperties.Criteria :=
  GetProperties.mkCriteria (Some 10%Q) None None None 2 2 [] None.

End Cases5.

(** The state a run of the handler leaves ([w] itself when it did not
    finish). *)
Definition worldAfter (w : OpenMeteo.World)
           (o : option (GetProperties.Response * OpenMeteo.World)) : OpenMeteo.World :=
  match o with
  | Some (_, w') => w'
  | None => w
  end.

(** The names of [gs] that are group keys. *)
Definition validNames (gs : list string) : list string :=
  filter (Weather.includes Weather.WEATHER_GROUP_KEYS) gs.

(** ** lib/openMeteo: the bulk fetcher under its concurrency limit

    [limit] is p-limit's bound ([WEATHER_CONCURRENCY], 5 by default).  A
    task is started as soon as a place is free, in input order; its
    synchronous part reads the cache and, on a miss, issues the request.
    Which of the requests in flight is answered next is not up to the code:
    [schedule] lists, answer after answer, the position (among the requests
    in flight, oldest first) of the one that arrives; a position out of
    range stands for the oldest.  [Promise.all] hands back the entries in
    input order. *)

Module Concurrent.

Import OpenMeteo.

Inductive Status : Type :=
| Pending
| InFlight
| Done (outcome : string + WeatherResult).

Definition Slot : Type := (PropRef * Status)%type.

Section WithEnv.

Variable E : Env.

(** Lines 60-105 of [fetchWeather]: the result made from a response body. *)
Definition weatherOf (data : RawData) : WeatherResult :=
  let cw := current_weather data in
  let temperature := match cw with Some c => cw_temperature c | None => None end in
  let weathercode := match cw with Some c => cw_weathercode c | None => None end in
  let humidity := extractHumidity E data in
  mkWeatherResult temperature weathercode humidity (Some (nowISO E)).

(** How the awaited request of [fetchWeather(lat, lng)] settles. *)
Definition responseOutcome (lat lng : Q) : string + WeatherResult :=
  match upstream E lat lng with
  | inr data => inr (weatherOf data)
  | inl message =>
      inl ("OpenMeteo fetch failed for " ++ NumberToString E lat ++ ","
           ++ NumberToString E lng ++ ": " ++ message)
  end.

Definition keyOf (p : PropRef) : string := cacheKey E (r_lat p) (r_lng p).

Fixpoint inFlight (slots : list Slot) : nat :=
  match slots with
  | [] => O
  | (_, InFlight) :: rest => S (inFlight rest)
  | _ :: rest => inFlight rest
  end.

(** Start the first task not yet started: a cache hit settles it at once,
    a miss sends its request. *)
Fixpoint startNext (w : World) (slots : list Slot) : option (list Slot * World) :=
  match slots with
  | [] => None
  | (p, Pending) :: rest =>
      match cacheGet (cache w) (keyOf p) with
      | Some cached => Some ((p, Done (inr cached)) :: rest, w)
      | None => Some ((p, InFlight) :: rest, logUpstream w (r_lat p) (r_lng p))
      end
  | s :: rest =>
      match startNext w rest with
      | Some (rest', w') => Some (s :: rest', w')
      | None => None
      end
  end.

(** The answer to the [k]-th request in flight arrives: the rest of
    [fetchWeather] runs, caching a success. *)
Fixpoint finishAt (w : World) (k : nat) (slots : list Slot) : option (list Slot * World) :=
  match slots with
  | [] => None
  | (p, InFlight) :: rest =>
      match k with
      | O =>
          let outcome := responseOutcome (r_lat p) (r_lng p) in
          Some ((p, Done outcome) :: rest,
                match outcome with
                | inr result => cacheSet w (keyOf p) result
                | inl _ => w
                end)
      | S k' =>
          match finishAt w k' rest with
          | Some (rest', w') => Some ((p, InFlight) :: rest', w')
          | None => None
          end
      end
  | s :: rest =>
      match finishAt w k rest with
      | Some (rest', w') => Some (s :: rest', w')
      | None => None
      end
  end.

(** One answer arrives: the scheduled one, or the oldest. *)
Definition finishNext (w : World) (schedule : list nat) (slots : list Slot)
  : option (list Slot * World) :=
  match finishAt w (hd O schedule) slots with
  | Some r => Some r
  | None => finishAt w O slots
  end.

(** The event loop over one call: start while a place is free, otherwise
    wait for an answer; stop when nothing is in flight. *)
Fixpoint run (fuel limit : nat) (schedule : list nat) (w : World) (slots : list Slot)
  : option (list Slot * World) :=
  match fuel with
  | O => None
  | S fuel' =>
      let wait :=
        match finishNext w schedule slots with
        | Some (slots', w') => run fuel' limit (tl schedule) w' slots'
        | None => Some (slots, w)
        end in
      if (inFlight slots <? limit)%nat then
        match startNext w slots with
        | Some (slots', w') => run fuel' limit schedule w' slots'
        | None => wait
        end
      else wait
  end.

(** The array [Promise.all] resolves to, once every task has settled. *)
Fixpoint entriesOf (slots : list Slot) : option (list PropWeather) :=
  match slots with
  | [] => Some []
  | (p, Done outcome) :: rest =>
      match entriesOf rest with
      | Some entries => Some (settle p outcome :: entries)
      | None => None
      end
  | _ :: _ => None
  end.

Definition fetchWeatherForProperties (limit : nat) (schedule : list nat) (w : World)
           (props : list PropRef) : option (list PropWeather * World) :=
  match run (2 * List.length props + 1) limit schedule w
            (map (fun p => (p, Pending)) props) with
  | Some (slots, w') =>
      match entriesOf slots with
      | Some entries => Some (entries, w')
      | None => None
      end
  | None => None
  end.

End WithEnv.

End Concurrent.

(** The environment with another upstream. *)
Definition withUpstream (E : Env) (up : Q -> Q -> string + RawData) : Env :=
  mkEnv (ToNumber E) (NumberToString E) (DateParse E) (now E) (nowISO E) up
        (dbCount E) (dbFindMany E).



Module Cases7.

Import OpenMeteo.

(** An upstream that always answers, reporting the latitude as the
    temperature: [Sample.flaky] repaired. *)
Definition steady (lat lng : Q) : string + RawData :=
  inr (mkRawData (Some (mkCurrentWeather (Some lat) (Some 0%Q))) None).

(** Six requests: the first at latitude 13, where [Sample.flaky] fails, the
    last [0.00001] further north, under the same cache key. *)
Definition sixRequests : list PropRef :=
  [mkPropRef 1 13 0; mkPropRef 2 11 0; mkPropRef 3 12 0; mkPropRef 4 14 0;
   mkPropRef 5 15 0; mkPropRef 6 (1300001 # 100000) 0].

End Cases7.

(** ** What a run of the bulk fetcher keeps true

    [w0] is the state the call starts in and [props] its argument. *)

Section RunInvariant.

Import OpenMeteo Concurrent.

Variable E : Env.
Variable w0 : World.
Variable props : list PropRef.







End RunInvariant.

(** * Properties *)

(** ** The taxonomy *)

Section Taxonomy.

Import Weather.

Lemma includes_In (xs : list string) (x : string) :
  includes xs x = true <-> In x xs.
Proof.
  unfold includes. rewrite existsb_exists. split.
  - intros [y [Hy Heq]]. apply String.eqb_eq in Heq. now subst.
  - intros H. exists x. split; [assumption | apply String.eqb_refl].
Qed.

Lemma has_In (s : list Z) (code : Q) :
  has s code = true <-> exists z, In z s /\ code == inject_Z z.
Proof.
  unfold has. rewrite existsb_exists. split.
  - intros [z [Hz Heq]]. exists z. split; [assumption | now apply Qeq_bool_iff].
  - intros [z [Hz Heq]]. exists z. split; [assumption | now apply Qeq_bool_iff].
Qed.

(** The keys of the object literal are pairwise distinct, so property
    lookup and membership in the table coincide. *)
Lemma lookupGroup_In (g : string) (s : list Z) :
  lookupGroup WeatherGroups g = Some s <-> In (g, s) WeatherGroups.
Proof.
  split.
  - unfold WeatherGroups. cbn [lookupGroup].
    repeat match goal with
           | |- context [String.eqb g ?k] =>
               destruct (String.eqb_spec g k) as [-> | _];
               [intros [= <-]; cbn; tauto | ]
           end.
    discriminate.
  - unfold WeatherGroups. cbn [In].
    intros [H | [H | [H | [H | [H | []]]]]]; injection H as <- <-; reflexivity.
Qed.

Lemma lookupGroup_keys (g : string) :
  In g WEATHER_GROUP_KEYS -> exists s, lookupGroup WeatherGroups g = Some s.
Proof.
  unfold WEATHER_GROUP_KEYS. rewrite in_map_iff.
  intros [[k s] [<- Hin]]. exists s. now apply lookupGroup_In.
Qed.

Lemma groupHas_belongs (g : string) (code : Q) :
  groupHas g code = true <-> belongs code g.
Proof.
  unfold groupHas, belongs. split.
  - destruct (lookupGroup WeatherGroups g) as [s |] eqn:Hs; [| discriminate].
    intros H. apply has_In in H. destruct H as [z [Hz Heq]].
    exists s, z. split; [now apply lookupGroup_In | tauto].
  - intros [s [z [Hin [Hz Heq]]]]. apply lookupGroup_In in Hin. rewrite Hin.
    apply has_In. now exists z.
Qed.

Lemma belongs_key (g : string) (code : Q) :
  belongs code g -> In g WEATHER_GROUP_KEYS.
Proof.
  intros [s [z [Hin _]]]. unfold WEATHER_GROUP_KEYS.
  apply in_map_iff. now exists (g, s).
Qed.

(** The group of an integer code, read off the table. *)
Lemma groupOf_unique (g g' : string) (s s' : list Z) (z : Z) :
  In (g, s) WeatherGroups -> In z s ->
  In (g', s') WeatherGroups -> In z s' -> g = g'.
Proof.
  intros Hg Hz Hg' Hz'.
  assert (Hfun : forall h t, In (h, t) WeatherGroups -> In z t ->
                 h = (if z =? 0 then "clear"
                      else if z <=? 3 then "cloudy"
                      else if z <=? 57 then "drizzle"
                      else if (z <=? 67) || ((80 <=? z) && (z <=? 82)) then "rainy"
                      else "snow")).
  { intros h t Ht Hzt. unfold WeatherGroups in Ht. cbn [In] in Ht.
    destruct Ht as [H | [H | [H | [H | [H | []]]]]]; injection H as <- <-;
      cbn [In] in Hzt; intuition (subst; reflexivity). }
  rewrite (Hfun g s Hg Hz). now rewrite (Hfun g' s' Hg' Hz').
Qed.

Lemma belongs_unique (code : Q) (g g' : string) :
  belongs code g -> belongs code g' -> g = g'.
Proof.
  intros [s [z [Hin [Hz Heq]]]] [s' [z' [Hin' [Hz' Heq']]]].
  assert (z = z') as <-.
  { apply inject_Z_injective. now rewrite <- Heq, <- Heq'. }
  eapply groupOf_unique; eassumption.
Qed.

Lemma firstGroupWith_Some (keys : list string) (code : Q) (g : string) :
  firstGroupWith keys code = Some g -> In g keys /\ groupHas g code = true.
Proof.
  induction keys as [| k keys IH]; cbn [firstGroupWith]; [discriminate |].
  destruct (groupHas k code) eqn:Hk.
  - intros [= <-]. split; [now left | assumption].
  - intros H. destruct (IH H). split; [now right | assumption].
Qed.

Lemma firstGroupWith_None (keys : list string) (code : Q) :
  firstGroupWith keys code = None <-> forall g, In g keys -> groupHas g code = false.
Proof.
  induction keys as [| k keys IH]; cbn [firstGroupWith].
  - split; [intros _ g [] | reflexivity].
  - destruct (groupHas k code) eqn:Hk.
    + split; [discriminate |]. intros H. specialize (H k (or_introl eq_refl)). congruence.
    + rewrite IH. split.
      * intros H g [<- | Hg]; [assumption | now apply H].
      * intros H g Hg. apply H. now right.
Qed.

Lemma label_belongs (code : Q) (g : string) :
  getWeatherGroupLabel (Some code) = Some g <-> belongs code g.
Proof.
  cbn [getWeatherGroupLabel]. split.
  - intros H. apply firstGroupWith_Some in H. now apply groupHas_belongs.
  - intros H.
    destruct (firstGroupWith WEATHER_GROUP_KEYS code) as [g' |] eqn:Hf.
    + f_equal. apply firstGroupWith_Some in Hf. destruct Hf as [_ Hf].
      apply groupHas_belongs in Hf. eapply belongs_unique; eassumption.
    + rewrite firstGroupWith_None in Hf.
      specialize (Hf g (belongs_key _ _ H)).
      apply groupHas_belongs in H. congruence.
Qed.

End Taxonomy.

(** C6. [getWeatherGroupLabel] classifies: a code contained in a group's
    code set is labelled with exactly that group, no code is contained in two
    groups' sets, a code contained in no set is labelled [null], and so is a
    non-numeric input. *)
Theorem getWeatherGroupLabel_classifies :
  forall code : Q,
    (forall g, Weather.belongs code g <->
               Weather.getWeatherGroupLabel (Some code) = Some g)
    /\ (forall g g', Weather.belongs code g -> Weather.belongs code g' -> g = g')
    /\ ((forall g, ~ Weather.belongs code g) <->
        Weather.getWeatherGroupLabel (Some code) = None)
    /\ Weather.getWeatherGroupLabel None = None.
Proof.
  intros code. repeat split.
  - intros H. now apply label_belongs.
  - intros H. now apply label_belongs.
  - apply belongs_unique.
  - intros Hno.
    destruct (Weather.getWeatherGroupLabel (Some code)) as [g |] eqn:Hl; [| reflexivity].
    apply label_belongs in Hl. now destruct (Hno g).
  - intros Hnone g Hg. apply label_belongs in Hg. congruence.
Qed.

(** C5. [matchesWeatherGroup]: true for an absent or empty list; otherwise,
    with the names outside the five keys discarded, true when none is left,
    false when the code is not a number, and else true exactly when the code
    belongs to one of the names left. *)
Theorem matchesWeatherGroup_cases :
  forall (code : option Q) (groups : option (list string)),
    let requested := match groups with Some gs => gs | None => [] end in
    let surviving :=
      filter (Weather.includes Weather.WEATHER_GROUP_KEYS) requested in
    (requested = [] -> Weather.matchesWeatherGroup code groups = true)
    /\ (surviving = [] -> Weather.matchesWeatherGroup code groups = true)
    /\ (surviving <> [] -> code = None ->
        Weather.matchesWeatherGroup code groups = false)
    /\ (forall c, surviving <> [] -> code = Some c ->
        (Weather.matchesWeatherGroup code groups = true <->
         exists g, In g surviving /\ Weather.belongs c g))
    /\ (forall g, In g surviving <->
                  In g requested /\ In g ["clear"; "cloudy"; "drizzle"; "rainy"; "snow"]).
Proof.
  intros code groups requested surviving.
  assert (Hsome : forall gs, groups = Some gs -> gs <> [] -> surviving <> [] ->
            Weather.matchesWeatherGroup code groups
            = match code with
              | None => false
              | Some c => existsb (fun g => Weather.groupHas g c) surviving
              end).
  { intros gs -> Hgs Hsurv. subst surviving requested.
    unfold Weather.matchesWeatherGroup. destruct gs as [| g0 gs]; [congruence |].
    destruct (filter _ (g0 :: gs)) eqn:Hf; [congruence | reflexivity]. }
  assert (Hreq : surviving <> [] -> exists gs, groups = Some gs /\ gs <> []).
  { subst surviving requested. destruct groups as [[| g0 gs] |]; cbn; try congruence.
    intros _. exists (g0 :: gs). split; [reflexivity | discriminate]. }
  split; [| split; [| split; [| split]]].
  - subst requested. destruct groups as [gs |]; [| reflexivity].
    intros ->. reflexivity.
  - subst surviving requested. destruct groups as [[| g0 gs] |]; try reflexivity.
    unfold Weather.matchesWeatherGroup. intros ->. reflexivity.
  - intros Hsurv ->. destruct (Hreq Hsurv) as [gs [Hg Hne]].
    now rewrite (Hsome gs Hg Hne Hsurv).
  - intros c Hsurv ->. destruct (Hreq Hsurv) as [gs [Hg Hne]].
    rewrite (Hsome gs Hg Hne Hsurv), existsb_exists.
    split; intros [g [Hin Hb]]; exists g; (split; [assumption | now apply groupHas_belongs]).
  - intros g. subst surviving. rewrite filter_In, includes_In. reflexivity.
Qed.

(** C10. The filter and the label agree: for a numeric code and a non-empty
    list of valid group names, [matchesWeatherGroup] holds exactly when
    [getWeatherGroupLabel] gives a group of the list. *)
Theorem matches_iff_label_in_list :
  forall (code : Q) (groups : list string),
    groups <> [] ->
    Forall (fun g => In g Weather.WEATHER_GROUP_KEYS) groups ->
    (Weather.matchesWeatherGroup (Some code) (Some groups) = true <->
     exists g, Weather.getWeatherGroupLabel (Some code) = Some g /\ In g groups).
Proof.
  intros code groups Hne Hvalid.
  assert (Hfilter : filter (Weather.includes Weather.WEATHER_GROUP_KEYS) groups = groups).
  { apply forallb_filter_id. apply forallb_forall. intros g Hg. apply includes_In.
    rewrite Forall_forall in Hvalid. now apply Hvalid. }
  unfold Weather.matchesWeatherGroup. rewrite Hfilter.
  destruct groups as [| g0 gs]; [congruence |].
  rewrite existsb_exists. split.
  - intros [g [Hin Hhas]]. exists g. split; [| assumption].
    apply label_belongs. now apply groupHas_belongs.
  - intros [g [Hl Hin]]. exists g. split; [assumption |].
    apply groupHas_belongs. now apply label_belongs.
Qed.

Lemma matches_iff_label_in_list_witness :
  Weather.matchesWeatherGroup (Some 61%Q) (Some ["snow"; "rainy"]) = true <->
  exists g, Weather.getWeatherGroupLabel (Some 61%Q) = Some g /\ In g ["snow"; "rainy"].
Proof.
  apply (matches_iff_label_in_list 61%Q ["snow"; "rainy"]).
  - discriminate.
  - repeat constructor; cbn; tauto.
Defined.

(** ** Numbers *)

Section Numbers.

Lemma Qltb_lt (a b : Q) : Qltb a b = true <-> (a < b)%Q.
Proof.
  unfold Qltb. rewrite negb_true_iff. split.
  - intros H. apply Qnot_le_lt. intros Hle. apply Qle_bool_iff in Hle. congruence.
  - intros H. destruct (Qle_bool b a) eqn:Hle; [| reflexivity].
    apply Qle_bool_iff in Hle. exfalso. exact (Qlt_not_le _ _ H Hle).
Qed.

Lemma Qltb_inject (x y : Z) : Qltb (inject_Z x) (inject_Z y) = (x <? y).
Proof.
  destruct (x <? y) eqn:H.
  - apply Qltb_lt. rewrite <- Zlt_Qlt. now apply Z.ltb_lt.
  - destruct (Qltb (inject_Z x) (inject_Z y)) eqn:Hq; [| reflexivity].
    apply Qltb_lt in Hq. rewrite <- Zlt_Qlt in Hq. apply Z.ltb_lt in Hq. congruence.
Qed.

Lemma Qltb_comp (a a' b b' : Q) : (a == a')%Q -> (b == b')%Q -> Qltb a b = Qltb a' b'.
Proof.
  intros Ha Hb. destruct (Qltb a' b') eqn:H.
  - apply Qltb_lt. rewrite Ha, Hb. now apply Qltb_lt.
  - destruct (Qltb a b) eqn:H'; [| reflexivity].
    apply Qltb_lt in H'. rewrite Ha, Hb in H'. apply Qltb_lt in H'. congruence.
Qed.

Lemma Qtrunc_inject (q : Q) (z : Z) : (q == inject_Z z)%Q -> 0 <= z -> Qtrunc q = z.
Proof.
  intros Hq Hz. unfold Qtrunc.
  assert (Hle : Qle_bool 0 q = true).
  { apply Qle_bool_iff. rewrite Hq. change 0%Q with (inject_Z 0). now rewrite <- Zle_Qle. }
  rewrite Hle, Hq. apply Qfloor_Z.
Qed.

Lemma Math_max_le_l (a b : Q) : (a <= Math_max a b)%Q.
Proof.
  unfold Math_max. destruct (Qle_bool a b) eqn:H.
  - now apply Qle_bool_iff.
  - apply Qle_refl.
Qed.

Lemma Math_max_le_r (a b : Q) : (b <= Math_max a b)%Q.
Proof.
  unfold Math_max. destruct (Qle_bool a b) eqn:H.
  - apply Qle_refl.
  - apply Qlt_le_weak. apply Qnot_le_lt. intros Hle. apply Qle_bool_iff in Hle. congruence.
Qed.

Lemma Math_min_le_l (a b : Q) : (Math_min a b <= a)%Q.
Proof.
  unfold Math_min. destruct (Qle_bool a b) eqn:H.
  - apply Qle_refl.
  - apply Qlt_le_weak. apply Qnot_le_lt. intros Hle. apply Qle_bool_iff in Hle. congruence.
Qed.

(** [clamp] lands in the interval it is given. *)
Lemma clamp_range (n lo hi : Q) :
  (lo <= hi)%Q -> (lo <= Utils.clamp n lo hi /\ Utils.clamp n lo hi <= hi)%Q.
Proof.
  intros Hlh. unfold Utils.clamp. split; [apply Math_max_le_l |].
  unfold Math_max. destruct (Qle_bool lo (Math_min hi n)); [apply Math_min_le_l | assumption].
Qed.

End Numbers.

(** ** Pagination of the accumulator *)

Section Pagination.

Import GetProperties.

Lemma slice_window {A : Type} (l : list A) (start end_ : Q) (k n : Z) :
  (start == inject_Z k)%Q -> (end_ == inject_Z (k + n))%Q -> 0 <= k -> 0 <= n ->
  slice l start end_ = firstn (Z.to_nat n) (skipn (Z.to_nat k) l).
Proof.
  intros Hs He Hk Hn. unfold slice.
  rewrite (Qtrunc_inject start k Hs Hk), (Qtrunc_inject end_ (k + n) He) by lia.
  destruct (Z.ltb_spec k 0) as [? | _]; [lia |].
  destruct (Z.ltb_spec (k + n) 0) as [? | _]; [lia |].
  set (len := Z.of_nat (List.length l)).
  destruct (Z.le_gt_cases len k) as [Hfar | Hin].
  - (* the window starts at or after the end *)
    rewrite (skipn_all2 l) by (subst len; lia).
    rewrite (skipn_all2 l) by (subst len; lia).
    now rewrite !firstn_nil.
  - rewrite (Z.min_l k len) by lia.
    destruct (Z.le_gt_cases (k + n) len) as [Hfit | Hcut].
    + rewrite (Z.min_l (k + n) len) by lia. f_equal. lia.
    + rewrite (Z.min_r (k + n) len) by lia.
      rewrite !firstn_all2; [reflexivity | |]; rewrite length_skipn; subst len; lia.
Qed.

End Pagination.

(** C2. In the filtered path, for an integer page number [p >= 1] and
    [take] in [1, 200], the response data is the slice
    [[(p-1)*take, p*take)] of the accumulator, [total] is the size of the
    accumulator, and [hasNextPage] holds exactly when [p*take < total]. *)
Theorem paginate_slice_total_next :
  forall (c : GetProperties.Criteria) (filtered : list GetProperties.Row) (p : Z),
    1 <= p ->
    (GetProperties.page c == inject_Z p)%Q ->
    1 <= GetProperties.take c <= 200 ->
    exists hasNextPage,
      GetProperties.paginate c filtered
      = GetProperties.Json
          (firstn (Z.to_nat (GetProperties.take c))
                  (skipn (Z.to_nat ((p - 1) * GetProperties.take c)) filtered))
          (GetProperties.page c) (GetProperties.take c)
          (Z.of_nat (List.length filtered)) hasNextPage
      /\ (hasNextPage = true <->
          p * GetProperties.take c < Z.of_nat (List.length filtered)).
Proof.
  intros c filtered p Hp Hpage Htake.
  unfold GetProperties.paginate.
  set (t := GetProperties.take c) in *.
  set (start := ((GetProperties.page c - 1) * inject_Z t)%Q).
  assert (Hstart : (start == inject_Z ((p - 1) * t))%Q).
  { subst start. rewrite Hpage, inject_Z_mult. unfold Z.sub.
    rewrite inject_Z_plus, inject_Z_opp. reflexivity. }
  assert (Hend : (start + inject_Z t == inject_Z ((p - 1) * t + t))%Q).
  { rewrite Hstart, <- inject_Z_plus. reflexivity. }
  eexists. split.
  - rewrite (slice_window filtered start (start + inject_Z t)%Q ((p - 1) * t) t Hstart Hend)
      by nia.
    reflexivity.
  - rewrite (Qltb_comp _ (inject_Z ((p - 1) * t + t)) _ (inject_Z (Z.of_nat (List.length filtered)))
               Hend (Qeq_refl _)).
    rewrite Qltb_inject, Z.ltb_lt. replace ((p - 1) * t + t) with (p * t) by ring.
    reflexivity.
Qed.

Lemma paginate_slice_total_next_witness :
  exists hasNextPage,
    GetProperties.paginate Sample.secondPage Sample.fiveRows
    = GetProperties.Json (firstn 2 (skipn 2 Sample.fiveRows)) 2 2 5 hasNextPage
    /\ (hasNextPage = true <-> 2 * 2 < 5).
Proof.
  apply (paginate_slice_total_next Sample.secondPage Sample.fiveRows 2);
    [lia | reflexivity | cbn; lia].
Defined.

(** ** Normalisation of the query *)

Section Normalisation.

Import GetProperties.

Variable E : Env.

Lemma parseWeatherGroups_valid (raw : QueryValue) (gs : list string) :
  Utils.parseWeatherGroups raw = Some gs ->
  Forall (fun g => In g Weather.WEATHER_GROUP_KEYS) gs.
Proof.
  unfold Utils.parseWeatherGroups. destruct (Utils.falsy raw).
  - intros [= <-]. constructor.
  - destruct raw; try discriminate; intros [= <-]; apply Forall_forall; intros g Hg;
      apply filter_In in Hg; now apply includes_In.
Qed.

(** X3.  What normalisation does establish: the four bounds are clamped,
    [take] is an integer of [1, 200], [page] is at least 1 and the group
    list holds valid names only. *)
Lemma normalize_ranges (req : Request) (c : Criteria) :
  normalize E req = Some c ->
  (forall b, tempMin c = Some b \/ tempMax c = Some b -> (-20 <= b /\ b <= 50)%Q)
  /\ (forall b, humMin c = Some b \/ humMax c = Some b -> (0 <= b /\ b <= 100)%Q)
  /\ 1 <= take c <= 200
  /\ (1 <= page c)%Q
  /\ Forall (fun g => In g Weather.WEATHER_GROUP_KEYS) (weatherGroups c).
Proof.
  unfold normalize.
  destruct (Utils.parseWeatherGroups (q_weather req)) as [gs |] eqn:Hg; [| discriminate].
  intros [= <-]. cbn [tempMin tempMax humMin humMax take page weatherGroups].
  split; [| split; [| split; [| split]]].
  - intros b [H | H];
      match type of H with option_map _ ?o = _ => destruct o; [| discriminate] end;
      injection H as <-; apply clamp_range; discriminate.
  - intros b [H | H];
      match type of H with option_map _ ?o = _ => destruct o; [| discriminate] end;
      injection H as <-; apply clamp_range; discriminate.
  - lia.
  - apply Math_max_le_l.
  - eapply parseWeatherGroups_valid; eassumption.
Qed.

End Normalisation.

(** Whatever number [page] parses to, the handler keeps it when it is at
    least 1. *)
Lemma normalize_page (E : Env) (req : GetProperties.Request) (c : GetProperties.Criteria)
      (p : Q) :
  GetProperties.normalize E req = Some c ->
  Utils.parseNumber (ToNumber E) (GetProperties.q_page req) = Some p ->
  (1 <= p)%Q ->
  (GetProperties.page c == p)%Q.
Proof.
  unfold GetProperties.normalize.
  destruct (Utils.parseWeatherGroups _); [| discriminate].
  intros [= <-] -> Hp. cbn [GetProperties.page GetProperties.orElse].
  unfold Math_max. apply Qle_bool_iff in Hp. rewrite Hp. reflexivity.
Qed.

(** C7.  The page is not floored: [Math.max(1, pageRaw)] keeps the fraction
    of [page=2.5], while [take] goes through [Math.floor]. *)
Theorem normalize_keeps_fractional_page :
  exists c,
    GetProperties.normalize Sample.offline Sample.halfPageRequest = Some c
    /\ GetProperties.take c = 2
    /\ (GetProperties.page c == 5 # 2)%Q
    /\ forall z : Z, ~ (GetProperties.page c == inject_Z z)%Q.
Proof.
  exists (GetProperties.mkCriteria None None None None 2 (25 # 10) [] None).
  split; [vm_compute; reflexivity |].
  cbn [GetProperties.take GetProperties.page]. split; [reflexivity |].
  split; [reflexivity |].
  intros z Hz. unfold Qeq in Hz. cbn in Hz. lia.
Qed.

(** ** The no-filter fast path *)



(** ** The batch scan *)

Section Scan.

Import OpenMeteo GetProperties.

Variable E : Env.
Variable c : Criteria.

(** The datastore is a finite table: a query with an integer [skip]
    returns the next rows of [rows], at most the batch size. *)
Variable rows : list Property.
Hypothesis table :
  forall n : nat,
    dbFindMany E (where_ c) (inject_Z (Z.of_nat n)) (Z.of_nat BATCH_SIZE)
    = firstn BATCH_SIZE (skipn n rows).

Lemma scan_enough_fuel (fuel : nat) :
  forall (w : World) (filtered : list Row) (totalChecked : nat) (hasMore : bool),
    (totalChecked <= List.length rows)%nat ->
    (List.length rows < totalChecked + fuel)%nat ->
    exists res, scan E fuel c w filtered totalChecked hasMore = Some res.
Proof.
  induction fuel as [| fuel IH]; intros w filtered totalChecked hasMore Hle Hlt.
  - lia.
  - cbn [scan].
    destruct (hasMore && Qltb _ _); [| eexists; reflexivity].
    rewrite table.
    set (dbBatch := firstn BATCH_SIZE (skipn totalChecked rows)).
    assert (Hlen : (totalChecked + List.length dbBatch <= List.length rows)%nat).
    { subst dbBatch. rewrite length_firstn, length_skipn. lia. }
    destruct (Nat.eqb_spec (List.length dbBatch) 0) as [_ | Hne]; [eexists; reflexivity |].
    destruct (List.length (toFetchOf dbBatch) =? 0)%nat.
    + apply IH; lia.
    + destruct (fetchWeatherForProperties E _ (toFetchOf dbBatch)) as [pw w'].
      apply IH; lia.
Qed.

(** Once [hasMore] is off, or the accumulator covers the page, the loop
    is over. *)
Lemma scan_done (fuel : nat) (w : World) (filtered : list Row) (totalChecked : nat)
      (hasMore : bool) :
  hasMore && Qltb (inject_Z (Z.of_nat (List.length filtered)))
                  (page c * inject_Z (take c)) = false ->
  scan E fuel c w filtered totalChecked hasMore = Some (filtered, w).
Proof. intros H. destruct fuel; cbn [scan]; now rewrite H. Qed.

(** X11.  The loop ends on every finite table. *)
Lemma scan_terminates (w : World) :
  exists res, scan E (S (List.length rows)) c w [] 0 true = Some res.
Proof. apply scan_enough_fuel; lia. Qed.

End Scan.

(** C1.  A short batch whose rows all lack coordinates does not stop the
    scan: on a table of one such row, with a temperature bound set, the
    handler queries the datastore a second time (at [skip = 1]) although the
    first batch held one row, fewer than 200. *)
Theorem scan_continues_after_short_batch :
  List.length (dbFindMany Sample.lonelyEnv None 0 200) = 1%nat
  /\ forall fuel,
       GetProperties.getProperties Sample.lonelyEnv (2 + fuel) Sample.emptyWorld
                                   Sample.tempMinRequest
       = Some (GetProperties.Json [] 1 20 0 false,
               OpenMeteo.mkWorld [] []
                 [OpenMeteo.FindMany None 0 200; OpenMeteo.FindMany None 1 200]).
Proof.
  split; [reflexivity |].
  intros fuel. reflexivity.
Qed.

(** ** Nearest hourly humidity *)

Section Humidity.

Import OpenMeteo.

Variable E : Env.

Lemma nearestLoop_spec (times : list string) :
  forall (i bestIdx : nat) (bestDiff : option Z),
    let r := nearestLoop E times i bestIdx bestDiff in
    (* the result is the initial state, or a sample that parses *)
    ((r = (bestIdx, bestDiff))
     \/ exists j s t, fst r = (i + j)%nat /\ nth_error times j = Some s
                      /\ parseTime E s = Some t /\ snd r = Some (distance E t))
    (* and its distance is minimal *)
    /\ leBest (snd r) bestDiff
    /\ (forall j s t, nth_error times j = Some s -> parseTime E s = Some t ->
                      leBest (snd r) (Some (distance E t))).
Proof.
  induction times as [| s0 rest IH]; intros i bestIdx bestDiff; cbn [nearestLoop].
  - cbn zeta. split; [now left |]. split.
    + destruct bestDiff; cbn; [lia | exact I].
    + intros [| j] s t; discriminate.
  - destruct (parseTime E s0) as [t0 |] eqn:Hp.
    + fold (distance E t0). destruct (ltBest (distance E t0) bestDiff) eqn:Hlt.
      * specialize (IH (S i) i (Some (distance E t0))). cbn zeta in IH |- *.
        destruct IH as [Hsrc [Hle Hmin]]. split; [| split].
        -- right. destruct Hsrc as [-> | [j [s [t [Hf [Hn [Hs Hd]]]]]]].
           ++ exists 0%nat, s0, t0. cbn. rewrite Nat.add_0_r. tauto.
           ++ exists (S j), s, t. cbn [nth_error]. rewrite Hf. split; [lia | tauto].
        -- destruct bestDiff as [b |]; [| exact I]. cbn in Hlt, Hle |- *.
           destruct (snd _) as [x |]; [| contradiction]. apply Z.ltb_lt in Hlt. lia.
        -- intros [| j] s t Hn Hs; cbn [nth_error] in Hn.
           ++ injection Hn as <-. rewrite Hp in Hs. injection Hs as <-. exact Hle.
           ++ now apply (Hmin j s t).
      * specialize (IH (S i) bestIdx bestDiff). cbn zeta in IH |- *.
        destruct IH as [Hsrc [Hle Hmin]]. split; [| split].
        -- destruct Hsrc as [-> | [j [s [t [Hf [Hn [Hs Hd]]]]]]]; [now left | right].
           exists (S j), s, t. cbn [nth_error]. rewrite Hf. split; [lia | tauto].
        -- exact Hle.
        -- intros [| j] s t Hn Hs; cbn [nth_error] in Hn.
           ++ injection Hn as <-. rewrite Hp in Hs. injection Hs as <-.
              destruct bestDiff as [b |]; [| discriminate]. cbn in Hlt, Hle |- *.
              destruct (snd _) as [x |]; [| contradiction]. apply Z.ltb_ge in Hlt. lia.
           ++ now apply (Hmin j s t).
    + specialize (IH (S i) bestIdx bestDiff). cbn zeta in IH |- *.
      destruct IH as [Hsrc [Hle Hmin]]. split; [| split].
      * destruct Hsrc as [-> | [j [s [t [Hf [Hn [Hs Hd]]]]]]]; [now left | right].
        exists (S j), s, t. cbn [nth_error]. rewrite Hf. split; [lia | tauto].
      * exact Hle.
      * intros [| j] s t Hn Hs; cbn [nth_error] in Hn.
        -- injection Hn as <-. congruence.
        -- now apply (Hmin j s t).
Qed.

(** With nothing parsable the loop leaves [bestIdx] and [bestDiff] alone. *)
Lemma nearestLoop_unparsable (times : list string) :
  (forall s, In s times -> parseTime E s = None) ->
  forall i bestIdx bestDiff,
    nearestLoop E times i bestIdx bestDiff = (bestIdx, bestDiff).
Proof.
  induction times as [| s0 rest IH]; intros Hall i bestIdx bestDiff; cbn [nearestLoop].
  - reflexivity.
  - rewrite (Hall s0) by now left. apply IH. intros s Hs. apply Hall. now right.
Qed.

(** X8.  When some timestamp parses, the humidity taken is the one at a parsed
    timestamp nearest to now. *)
Lemma extractHumidity_nearest (cw : option CurrentWeather) (times : list string)
      (hums : list (option Q)) :
  List.length times = List.length hums ->
  (exists s t, In s times /\ parseTime E s = Some t) ->
  exists i s t,
    nth_error times i = Some s /\ parseTime E s = Some t
    /\ (forall j s' t', nth_error times j = Some s' -> parseTime E s' = Some t' ->
                        distance E t <= distance E t')
    /\ extractHumidity E (hourlyData cw times hums) = numberAt hums i.
Proof.
  intros Hlen [s1 [t1 [Hin Hp1]]].
  destruct (In_nth_error _ _ Hin) as [j1 Hj1].
  destruct (nearestLoop_spec times 0 0 None) as [Hsrc [_ Hmin]]. cbn zeta in *.
  destruct Hsrc as [Hinit | [j [s [t [Hf [Hn [Hs Hd]]]]]]].
  - specialize (Hmin j1 s1 t1 Hj1 Hp1). rewrite Hinit in Hmin. contradiction.
  - exists j, s, t. split; [assumption |]. split; [assumption |]. split.
    + intros j' s' t' Hn' Hs'. specialize (Hmin j' s' t' Hn' Hs').
      rewrite Hd in Hmin. exact Hmin.
    + unfold extractHumidity, hourlyData, numberAt. cbn [hourly time relativehumidity_2m].
      rewrite <- Hlen, Nat.eqb_refl.
      destruct times as [| s0 rest]; [destruct Hin |].
      cbn [List.length Nat.eqb negb andb]. rewrite Hf. reflexivity.
Qed.

End Humidity.

(** C3.  A series none of whose timestamps parses does not give [null]:
    [bestIdx] is still [0] after the loop, so the humidity is the first
    sample's (and that unparsable sample is the one chosen). *)
Theorem extractHumidity_unparsable_takes_first :
  forall (E : Env) (cw : option CurrentWeather) (times : list string)
         (h0 : option Q) (hums : list (option Q)),
    (forall s, In s times -> OpenMeteo.parseTime E s = None) ->
    List.length times = List.length (h0 :: hums) ->
    OpenMeteo.extractHumidity E (hourlyData cw times (h0 :: hums)) = h0.
Proof.
  intros E cw times h0 hums Hall Hlen.
  unfold OpenMeteo.extractHumidity, hourlyData.
  cbn [hourly time relativehumidity_2m].
  rewrite Hlen, Nat.eqb_refl. cbn [List.length Nat.eqb negb andb].
  rewrite (nearestLoop_unparsable E times Hall). cbn.
  destruct h0; reflexivity.
Qed.

Lemma extractHumidity_unparsable_takes_first_witness :
  OpenMeteo.extractHumidity Sample.offline (hourlyData None ["n/a"] [Some 42%Q])
  = Some 42%Q.
Proof.
  apply (extractHumidity_unparsable_takes_first
           Sample.offline None ["n/a"] (Some 42%Q) []).
  - intros s [<- | []]. reflexivity.
  - reflexivity.
Defined.

(** The example of the specification: samples at [t-10m], [t], [t+20m] with
    humidities 40, 55, 70, read at [t+1m]. *)
Example extractHumidity_example :
  OpenMeteo.extractHumidity
    (Sample.env [] Sample.unreachable (1709287200000 + 60000) "2024-03-01T10:01:00.000Z")
    (hourlyData None ["2024-03-01T09:50"; "2024-03-01T10:00"; "2024-03-01T10:20"]
                [Some 40%Q; Some 55%Q; Some 70%Q])
  = Some 55%Q.
Proof. vm_compute. reflexivity. Qed.

(** ** Cache keys *)

Section Strings.

Lemma allChars_app (P : ascii -> bool) (s t : string) :
  allChars P (s ++ t) = allChars P s && allChars P t.
Proof.
  induction s as [| c s IH]; cbn; [reflexivity |].
  now rewrite IH, andb_assoc.
Qed.

Lemma allChars_impl (P R : ascii -> bool) (s : string) :
  (forall c, P c = true -> R c = true) -> allChars P s = true -> allChars R s = true.
Proof.
  intros HPR. induction s as [| c s IH]; cbn; [reflexivity |].
  rewrite !andb_true_iff. intros [Hc Hs]. split; [now apply HPR | now apply IH].
Qed.

Lemma length_app_string (s t : string) :
  String.length (s ++ t) = (String.length s + String.length t)%nat.
Proof. induction s as [| c s IH]; cbn; [reflexivity | now rewrite IH]. Qed.

(** A string is cut in one way only at the first occurrence of [sep]. *)
Lemma cut_at_separator (sep : ascii) (s1 s2 t1 t2 : string) :
  allChars (fun c => negb (Ascii.eqb c sep)) s1 = true ->
  allChars (fun c => negb (Ascii.eqb c sep)) s2 = true ->
  (s1 ++ String sep t1 = s2 ++ String sep t2)%string ->
  s1 = s2 /\ t1 = t2.
Proof.
  revert s2. induction s1 as [| c1 s1 IH]; intros [| c2 s2]; cbn;
    rewrite ?andb_true_iff, ?negb_true_iff.
  - intros _ _ [= ->]. now split.
  - intros _ [Hc _] [= <- _]. rewrite Ascii.eqb_refl in Hc. discriminate.
  - intros [Hc _] _ [= -> _]. rewrite Ascii.eqb_refl in Hc. discriminate.
  - intros [_ H1] [_ H2] [= -> Heq]. destruct (IH s2 H1 H2 Heq) as [-> ->]. now split.
Qed.

Lemma substring_all (s : string) : substring 0 (String.length s) s = s.
Proof. induction s as [| c s IH]; cbn; [reflexivity | now rewrite IH]. Qed.

Lemma substring_cut (s : string) :
  forall a b, (a + b = String.length s)%nat ->
              (substring 0 a s ++ substring a b s)%string = s.
Proof.
  induction s as [| c s IH]; intros a b Hab; cbn in Hab.
  - destruct a, b; try discriminate. reflexivity.
  - destruct a as [| a].
    + cbn in Hab. subst b. cbn [substring append]. now rewrite substring_all.
    + cbn [substring append]. rewrite IH by lia. reflexivity.
Qed.

Lemma length_substring_prefix (s : string) :
  forall a, (a <= String.length s)%nat -> String.length (substring 0 a s) = a.
Proof.
  induction s as [| c s IH]; intros [| a] Ha; cbn in *; try reflexivity; try lia.
  rewrite IH by lia. reflexivity.
Qed.

End Strings.

Section Digits.

Import OpenMeteo.

Lemma uint_digits (d : Decimal.uint) : allChars isDigit (NilEmpty.string_of_uint d) = true.
Proof. induction d; cbn; try reflexivity; assumption. Qed.

Lemma digitsOf_NilEmpty (n : N) : digitsOf n = NilEmpty.string_of_uint (N.to_uint n).
Proof.
  unfold digitsOf, NilZero.string_of_uint.
  destruct (N.to_uint n) eqn:Hd; try reflexivity.
  destruct n as [| p]; [discriminate |]. cbn in Hd.
  now destruct (DecimalPos.Unsigned.to_uint_nonnil p).
Qed.

Lemma digitsOf_digits (n : N) : allChars isDigit (digitsOf n) = true.
Proof. rewrite digitsOf_NilEmpty. apply uint_digits. Qed.

Lemma zeros_digits (k : nat) : allChars isDigit (zeros k) = true.
Proof. induction k; cbn; [reflexivity | assumption]. Qed.

Lemma length_zeros (k : nat) : String.length (zeros k) = k.
Proof. induction k; cbn; [reflexivity | now rewrite IHk]. Qed.

(** Leading zeros do not change the number the digits denote. *)
Lemma backValue_zeros (k : nat) (n : N) : backValue (zeros k ++ digitsOf n) = Some n.
Proof.
  unfold backValue. induction k as [| k IH].
  - cbn [zeros append]. rewrite digitsOf_NilEmpty, NilEmpty.usu. cbn.
    now rewrite DecimalN.Unsigned.of_to.
  - cbn [zeros append NilEmpty.uint_of_string].
    destruct (NilEmpty.uint_of_string (zeros k ++ digitsOf n)) as [d |]; [| discriminate].
    cbn in IH |- *. exact IH.
Qed.

(** The shape of [fixedDigits 4 n]: digits, a point, four digits; the
    digits read back as [n]. *)
Lemma fixedDigits_shape (n : N) :
  exists a b,
    fixedDigits 4 n = (a ++ String "." b)%string
    /\ allChars isDigit a = true /\ allChars isDigit b = true
    /\ a <> ""%string
    /\ backValue (a ++ b) = Some n.
Proof.
  unfold fixedDigits.
  set (m0 := digitsOf n).
  set (m := if (String.length m0 <=? 4)%nat
            then (zeros (4 + 1 - String.length m0) ++ m0)%string else m0).
  assert (Hm : exists j, m = (zeros j ++ m0)%string).
  { subst m. destruct (String.length m0 <=? 4)%nat; [eexists; reflexivity |].
    exists 0%nat. reflexivity. }
  assert (Hlen : (5 <= String.length m)%nat).
  { subst m. destruct (Nat.leb_spec (String.length m0) 4).
    - rewrite length_app_string, length_zeros. lia.
    - lia. }
  destruct Hm as [j Hj].
  assert (Hdig : allChars isDigit m = true).
  { rewrite Hj, allChars_app, zeros_digits. apply digitsOf_digits. }
  assert (Hcut : (substring 0 (String.length m - 4) m
                  ++ substring (String.length m - 4) 4 m)%string = m).
  { apply substring_cut. lia. }
  exists (substring 0 (String.length m - 4) m), (substring (String.length m - 4) 4 m).
  rewrite <- Hcut, allChars_app, andb_true_iff in Hdig. destruct Hdig as [Ha Hb].
  split; [reflexivity |]. split; [exact Ha |]. split; [exact Hb |]. split.
  - intros Hempty.
    assert (Hl := length_substring_prefix m (String.length m - 4) ltac:(lia)).
    rewrite Hempty in Hl. cbn in Hl. lia.
  - rewrite Hcut, Hj. apply backValue_zeros.
Qed.

Lemma digit_not (sep : ascii) (s : string) :
  isDigit sep = false -> allChars isDigit s = true ->
  allChars (fun c => negb (Ascii.eqb c sep)) s = true.
Proof.
  intros Hsep. apply allChars_impl. intros c Hc.
  destruct (Ascii.eqb_spec c sep) as [-> | _]; [congruence | reflexivity].
Qed.

Lemma fixedDigits_inj (n n' : N) : fixedDigits 4 n = fixedDigits 4 n' -> n = n'.
Proof.
  destruct (fixedDigits_shape n) as [a [b [-> [Ha [Hb [_ Hv]]]]]].
  destruct (fixedDigits_shape n') as [a' [b' [-> [Ha' [Hb' [_ Hv']]]]]].
  intros Heq.
  destruct (cut_at_separator "." a a' b b') as [-> ->];
    [now apply digit_not | now apply digit_not | exact Heq |].
  congruence.
Qed.

End Digits.

Section CacheKey.

Import OpenMeteo.

Variable E : Env.

Lemma toFixed_small (x : Q) :
  small x ->
  toFixed E 4 x
  = ((if Qltb x 0 then "-" else "") ++ fixedDigits 4 (nearestScaled 4 (Qabs x)))%string.
Proof.
  intros Hx. unfold toFixed.
  destruct (Qle_bool (inject_Z (10 ^ 21)) (Qabs x)) eqn:Hle; [| reflexivity].
  apply Qle_bool_iff in Hle. exfalso. exact (Qlt_not_le _ _ Hx Hle).
Qed.

(** The rounding of [toFixed]: [n] is within half a unit of [x * 10^4]. *)
Lemma nearestScaled_bounds (x : Q) :
  (0 <= x)%Q ->
  let n := inject_Z (Z.of_N (nearestScaled 4 x)) in
  (n - (1 # 2) <= x * 10000 /\ x * 10000 < n + (1 # 2))%Q.
Proof.
  intros Hx. unfold nearestScaled. cbn zeta.
  change (inject_Z (10 ^ Z.of_nat 4)) with 10000%Q.
  set (y := (x * 10000 + (1 # 2))%Q).
  assert (Hy : (0 <= y)%Q).
  { subst y. apply (Qle_trans _ (0 * 10000 + (1 # 2))); [discriminate |].
    apply Qplus_le_l. apply Qmult_le_compat_r; [assumption | discriminate]. }
  assert (Hfl : 0 <= Qfloor y).
  { change 0 with (Qfloor 0). now apply Qfloor_resp_le. }
  rewrite Z2N.id by assumption.
  pose proof (Qfloor_le y) as Hlo. pose proof (Qlt_floor y) as Hhi.
  rewrite inject_Z_plus in Hhi. change (inject_Z 1) with 1%Q in Hhi.
  subst y. split.
  - apply (Qplus_le_l _ _ (1 # 2)). ring_simplify. ring_simplify in Hlo. exact Hlo.
  - apply (Qplus_lt_l _ _ (1 # 2)). ring_simplify. ring_simplify in Hhi. exact Hhi.
Qed.

Lemma toFixed_same (x y : Q) :
  small x -> small y ->
  (toFixed E 4 x = toFixed E 4 y <-> rounded 4 x = rounded 4 y).
Proof.
  intros Hx Hy. rewrite (toFixed_small x Hx), (toFixed_small y Hy). unfold rounded.
  split.
  - destruct (fixedDigits_shape (nearestScaled 4 (Qabs x))) as [a [b [Hs [Ha [_ [Hne _]]]]]].
    destruct (fixedDigits_shape (nearestScaled 4 (Qabs y))) as [a' [b' [Hs' [Ha' [_ [Hne' _]]]]]].
    destruct (Qltb x 0), (Qltb y 0); cbn [append].
    + intros [= H]. now rewrite (fixedDigits_inj _ _ H).
    + rewrite Hs'. destruct a' as [| c r]; [congruence |]. cbn in Ha' |- *.
      intros [= <- _]. discriminate.
    + rewrite Hs. destruct a as [| c r]; [congruence |]. cbn in Ha |- *.
      intros [= -> _]. discriminate.
    + intros H. now rewrite (fixedDigits_inj _ _ H).
  - intros [= -> ->]. reflexivity.
Qed.

Lemma toFixed_no_comma (x : Q) :
  small x -> allChars (fun c => negb (Ascii.eqb c ",")) (toFixed E 4 x) = true.
Proof.
  intros Hx. rewrite (toFixed_small x Hx).
  destruct (fixedDigits_shape (nearestScaled 4 (Qabs x))) as [a [b [-> [Ha [Hb _]]]]].
  rewrite !allChars_app. cbn [allChars].
  rewrite (digit_not "," a), (digit_not "," b) by (reflexivity || assumption).
  now destruct (Qltb x 0).
Qed.

End CacheKey.

(** C4, as the code has it.  For coordinates below [10^21] in magnitude,
    two pairs get the same cache key exactly when their latitudes, and their
    longitudes, agree in sign and in the value rounded to four decimals. *)
Theorem cacheKey_same_iff_same_rounding :
  forall (E : Env) (lat1 lng1 lat2 lng2 : Q),
    small lat1 -> small lng1 -> small lat2 -> small lng2 ->
    (OpenMeteo.cacheKey E lat1 lng1 = OpenMeteo.cacheKey E lat2 lng2 <->
     rounded 4 lat1 = rounded 4 lat2 /\ rounded 4 lng1 = rounded 4 lng2).
Proof.
  intros E lat1 lng1 lat2 lng2 H1 H2 H3 H4. unfold OpenMeteo.cacheKey.
  change OpenMeteo.CACHE_ROUND_DIGITS with 4%nat.
  rewrite <- (toFixed_same E lat1 lat2 H1 H3), <- (toFixed_same E lng1 lng2 H2 H4).
  split.
  - intros Heq. apply (cut_at_separator "," _ _ _ _); [| | exact Heq];
      now apply toFixed_no_comma.
  - intros [-> ->]. reflexivity.
Qed.

Lemma cacheKey_same_iff_same_rounding_witness :
  OpenMeteo.cacheKey Sample.offline 1 2
  = OpenMeteo.cacheKey Sample.offline (32767 # 32768) 2 <->
  rounded 4 1 = rounded 4 (32767 # 32768) /\ rounded 4 2 = rounded 4 2.
Proof.
  apply (cacheKey_same_iff_same_rounding Sample.offline 1 2 (32767 # 32768) 2);
    reflexivity.
Defined.

(** C4, as it is worded, fails both ways: [1] and [1.000091552734375]
    differ only beyond the 4th decimal digit and get the keys [1.0000,..]
    and [1.0001,..]; [1] and [0.999969482421875] differ at the first decimal
    digit and both get [1.0000,..]. *)
Lemma cacheKey_digits_counterexample :
  ~ (forall lat1 lng1 lat2 lng2 : Q,
       (sameTo4Digits lat1 lat2 /\ sameTo4Digits lng1 lng2 ->
        OpenMeteo.cacheKey Sample.offline lat1 lng1
        = OpenMeteo.cacheKey Sample.offline lat2 lng2)
       /\ (~ (sameTo4Digits lat1 lat2 /\ sameTo4Digits lng1 lng2) ->
           OpenMeteo.cacheKey Sample.offline lat1 lng1
           <> OpenMeteo.cacheKey Sample.offline lat2 lng2)).
Proof.
  intros Hclaim.
  destruct (Hclaim 1%Q 0%Q (32771 # 32768)%Q 0%Q) as [Hsame _].
  assert (Hkeys : OpenMeteo.cacheKey Sample.offline 1 0
                  = OpenMeteo.cacheKey Sample.offline (32771 # 32768) 0).
  { apply Hsame. split; reflexivity. }
  vm_compute in Hkeys. discriminate.
Qed.

Example cacheKey_rounds_up :
  sameTo4Digits 1 (32771 # 32768)
  /\ OpenMeteo.cacheKey Sample.offline 1 0 = "1.0000,0.0000"
  /\ OpenMeteo.cacheKey Sample.offline (32771 # 32768) 0 = "1.0001,0.0000".
Proof. repeat split; vm_compute; reflexivity. Qed.

Example cacheKey_rounds_across_digits :
  ~ sameTo4Digits 1 (32767 # 32768)
  /\ OpenMeteo.cacheKey Sample.offline 1 0 = "1.0000,0.0000"
  /\ OpenMeteo.cacheKey Sample.offline (32767 # 32768) 0 = "1.0000,0.0000".
Proof.
  split; [| split; vm_compute; reflexivity].
  unfold sameTo4Digits. vm_compute. discriminate.
Qed.

(** ** The bulk fetcher *)

Section BulkFetch.

Import OpenMeteo.

Variable E : Env.

(** The error [fetchWeather] throws always carries a message. *)
Lemma fetchWeather_message (w w' : World) (lat lng : Q) (m : string) :
  fetchWeather E w lat lng = (inl m, w') -> m <> ""%string.
Proof.
  unfold fetchWeather.
  destruct (cacheGet (cache w) (cacheKey E lat lng)); [discriminate |].
  destruct (upstream E lat lng); intros [= <- _]; discriminate.
Qed.

Lemma fetchOutcomes_length (props : list PropRef) :
  forall w, List.length (fetchOutcomes E w props) = List.length props.
Proof.
  induction props as [| p rest IH]; intros w; cbn [fetchOutcomes]; [reflexivity |].
  destruct (fetchWeather E w (r_lat p) (r_lng p)) as [o w1]. cbn. now rewrite IH.
Qed.

Lemma fetchWeatherForProperties_length (props : list PropRef) :
  forall w, List.length (fst (fetchWeatherForProperties E w props)) = List.length props.
Proof.
  induction props as [| p rest IH]; intros w; cbn [fetchWeatherForProperties];
    [reflexivity |].
  destruct (fetchWeather E w (r_lat p) (r_lng p)) as [o w1].
  specialize (IH w1). destruct (fetchWeatherForProperties E w1 rest) as [es w2].
  cbn in *. now rewrite IH.
Qed.

(** Entry [i] is built from request [i] and from the way call [i]
    settled, and from nothing else. *)
Lemma fetchWeatherForProperties_nth (props : list PropRef) :
  forall (w : World) (i : nat) (p : PropRef),
    nth_error props i = Some p ->
    exists o,
      nth_error (fetchOutcomes E w props) i = Some o
      /\ nth_error (fst (fetchWeatherForProperties E w props)) i = Some (settle p o)
      /\ (forall m, o = inl m -> m <> ""%string).
Proof.
  induction props as [| p0 rest IH]; intros w i p Hi; [destruct i; discriminate |].
  cbn [fetchOutcomes fetchWeatherForProperties].
  destruct (fetchWeather E w (r_lat p0) (r_lng p0)) as [o w1] eqn:Hf.
  specialize (IH w1). destruct (fetchWeatherForProperties E w1 rest) as [es w2].
  destruct i as [| i]; cbn [nth_error fst] in *.
  - injection Hi as <-. exists o. repeat split.
    intros m ->. eapply fetchWeather_message; eassumption.
  - exact (IH i p Hi).
Qed.

End BulkFetch.

(** One failure in a batch of five: the failing entry carries the error,
    the four others their weather. *)
Example fetchWeatherForProperties_one_of_five :
  map (fun e => (OpenMeteo.w_id e,
                 option_map OpenMeteo.temperature (OpenMeteo.weather e),
                 OpenMeteo.weatherError e))
      (fst (OpenMeteo.fetchWeatherForProperties Sample.flakyEnv Sample.emptyWorld
                                                Sample.fiveRequests))
  = [ (1, Some (Some 11%Q), None);
      (2, Some (Some 12%Q), None);
      (3, None, Some "OpenMeteo fetch failed for 13,0: Network Error");
      (4, Some (Some 14%Q), None);
      (5, Some (Some 15%Q), None) ].
Proof. vm_compute. reflexivity. Qed.


(** ** The handler on the example of the specification *)

(** Temperatures 15, 25, 12 and groups clear, rainy, clear, asked for
    10..20 degrees and clear sky: rows 1 and 3 pass, the table is exhausted
    by the first batch, and there is no next page. *)
Example getProperties_three_towns :
  exists w,
    GetProperties.getProperties Sample.townsEnv 1 Sample.emptyWorld
                                Sample.mildAndClearRequest
    = Some (GetProperties.Json
              [ GetProperties.WithWeather
                  (Some (Sample.row 1 (Some 1%Q) (Some 0%Q) "a"))
                  (Some (OpenMeteo.mkWeatherResult (Some 15%Q) (Some 0%Q) None
                                                   (Some "2024-03-01T10:00:00.000Z")))
                  (Some "clear") None;
                GetProperties.WithWeather
                  (Some (Sample.row 3 (Some 3%Q) (Some 0%Q) "c"))
                  (Some (OpenMeteo.mkWeatherResult (Some 12%Q) (Some 0%Q) None
                                                   (Some "2024-03-01T10:00:00.000Z")))
                  (Some "clear") None ]
              1 2 2 false, w)
    /\ OpenMeteo.upstreamCalls w = [(1%Q, 0%Q); (2%Q, 0%Q); (3%Q, 0%Q)]
    /\ OpenMeteo.dbCalls w = [OpenMeteo.FindMany None 0 200].
Proof. eexists. split; [reflexivity | split; reflexivity]. Qed.

Example toFixed_examples :
  OpenMeteo.toFixed Sample.offline 4 (123456789 # 1000000) = "123.4568"
  /\ OpenMeteo.toFixed Sample.offline 4 (-1 # 100000) = "-0.0000"
  /\ OpenMeteo.toFixed Sample.offline 4 (5 # 100000) = "0.0001"
  /\ OpenMeteo.toFixed Sample.offline 4 (-12) = "-12.0000".
Proof. repeat split; vm_compute; reflexivity. Qed.

(** * Further properties of the code *)

From Stdlib Require Import Lqa.

(** ** lib/utils *)

Section ClampFacts.

Lemma Qle_bool_false (a b : Q) : Qle_bool a b = false -> (b < a)%Q.
Proof.
  intros H. apply Qnot_le_lt. intros Hle. apply Qle_bool_iff in Hle. congruence.
Qed.

End ClampFacts.

(** X1.  [clamp] with [min <= max]: the result lies in [[min, max]]; a number of
    the interval is returned as it is, a smaller one gives [min], a larger
    one [max]. *)
Theorem clamp_cases :
  forall n lo hi : Q,
    (lo <= hi)%Q ->
    (lo <= Utils.clamp n lo hi <= hi)%Q
    /\ (lo <= n <= hi -> Utils.clamp n lo hi == n)%Q
    /\ (n <= lo -> Utils.clamp n lo hi == lo)%Q
    /\ (hi <= n -> Utils.clamp n lo hi == hi)%Q.
Proof.
  intros n lo hi Hlh. unfold Utils.clamp, Math_max, Math_min.
  destruct (Qle_bool hi n) eqn:H1;
    [apply Qle_bool_iff in H1 | apply Qle_bool_false in H1].
  - destruct (Qle_bool lo hi) eqn:H2;
      [apply Qle_bool_iff in H2 | apply Qle_bool_false in H2];
      repeat split; intros; lra.
  - destruct (Qle_bool lo n) eqn:H2;
      [apply Qle_bool_iff in H2 | apply Qle_bool_false in H2];
      repeat split; intros; lra.
Qed.

Lemma clamp_cases_witness :
  (-20 <= Utils.clamp 72 (-20) 50 <= 50)%Q
  /\ (-20 <= 72 <= 50 -> Utils.clamp 72 (-20) 50 == 72)%Q
  /\ (72 <= -20 -> Utils.clamp 72 (-20) 50 == -20)%Q
  /\ (50 <= 72 -> Utils.clamp 72 (-20) 50 == 50)%Q.
Proof. apply (clamp_cases 72 (-20) 50). discriminate. Defined.

(** X2.  [parseWeatherGroups] does not throw on an absent value, a string or an
    array, and what it returns is a fixed point: parsed again as an array it
    comes back unchanged. *)
Theorem parseWeatherGroups_stable :
  forall raw : QueryValue,
    (forall n, raw <> QNum n) ->
    exists gs,
      Utils.parseWeatherGroups raw = Some gs
      /\ Utils.parseWeatherGroups (QArr gs) = Some gs.
Proof.
  intros raw Hraw.
  assert (Hex : exists gs, Utils.parseWeatherGroups raw = Some gs).
  { unfold Utils.parseWeatherGroups.
    destruct (Utils.falsy raw) eqn:Hf; [eexists; reflexivity |].
    destruct raw as [| s | arr | n]; try (eexists; reflexivity).
    - discriminate.
    - now destruct (Hraw n). }
  destruct Hex as [gs Hgs]. exists gs. split; [exact Hgs |].
  pose proof (parseWeatherGroups_valid raw gs Hgs) as Hvalid.
  unfold Utils.parseWeatherGroups. cbn [Utils.falsy]. f_equal.
  apply forallb_filter_id. apply forallb_forall. intros g Hg. apply includes_In.
  rewrite Forall_forall in Hvalid. now apply Hvalid.
Qed.

Lemma parseWeatherGroups_stable_witness :
  exists gs,
    Utils.parseWeatherGroups (QStr " rainy ,fog,,clear") = Some gs
    /\ Utils.parseWeatherGroups (QArr gs) = Some gs.
Proof. apply (parseWeatherGroups_stable (QStr " rainy ,fog,,clear")). discriminate. Defined.

(** ** Normalisation in the handler *)

Lemma normalize_ranges_witness :
  (forall b, GetProperties.tempMin Cases.wildCriteria = Some b
             \/ GetProperties.tempMax Cases.wildCriteria = Some b -> (-20 <= b /\ b <= 50)%Q)
  /\ (forall b, GetProperties.humMin Cases.wildCriteria = Some b
                \/ GetProperties.humMax Cases.wildCriteria = Some b -> (0 <= b /\ b <= 100)%Q)
  /\ 1 <= GetProperties.take Cases.wildCriteria <= 200
  /\ (1 <= GetProperties.page Cases.wildCriteria)%Q
  /\ Forall (fun g => In g Weather.WEATHER_GROUP_KEYS)
            (GetProperties.weatherGroups Cases.wildCriteria).
Proof.
  apply (normalize_ranges Sample.offline Cases.wildRequest Cases.wildCriteria).
  vm_compute. reflexivity.
Defined.

(** ** lib/openMeteo: the cache around [fetchWeather] *)

Section CacheFacts.

Import OpenMeteo.

Variable E : Env.

(** One call of [fetchWeather]: at most one upstream request, made for the
    coordinates asked; entries already cached stay; the datastore log is
    not touched. *)
Lemma fetchWeather_effects (w w1 : World) (lat lng : Q) (o : string + WeatherResult) :
  fetchWeather E w lat lng = (o, w1) ->
  dbCalls w1 = dbCalls w
  /\ (upstreamCalls w1 = upstreamCalls w
      \/ upstreamCalls w1 = (upstreamCalls w ++ [(lat, lng)])%list)
  /\ (forall k v, cacheGet (cache w) k = Some v -> cacheGet (cache w1) k = Some v).
Proof.
  unfold fetchWeather.
  destruct (cacheGet (cache w) (cacheKey E lat lng)) as [cached |] eqn:Hget.
  - intros [= <- <-]. split; [reflexivity |]. split; [now left | tauto].
  - destruct (upstream E lat lng) as [msg | data]; intros [= <- <-]; cbn.
    + split; [reflexivity |]. split; [now right | tauto].
    + split; [reflexivity |]. split; [now right |].
      intros k v Hk. destruct (String.eqb_spec k (cacheKey E lat lng)) as [-> | _];
        [congruence | exact Hk].
Qed.

End CacheFacts.

(** X4.  A successful fetch is cached under the key of its coordinates: the next
    fetch for any coordinates with the same key returns the same result and
    changes nothing (no upstream request). *)
Theorem fetchWeather_then_cache_hit :
  forall (E : Env) (w w1 : OpenMeteo.World) (lat lng lat' lng' : Q)
         (r : OpenMeteo.WeatherResult),
    OpenMeteo.fetchWeather E w lat lng = (inr r, w1) ->
    OpenMeteo.cacheKey E lat' lng' = OpenMeteo.cacheKey E lat lng ->
    OpenMeteo.fetchWeather E w1 lat' lng' = (inr r, w1).
Proof.
  intros E w w1 lat lng lat' lng' r Hfetch Hkey.
  unfold OpenMeteo.fetchWeather in *. rewrite Hkey.
  destruct (OpenMeteo.cacheGet (OpenMeteo.cache w) (OpenMeteo.cacheKey E lat lng))
    as [cached |] eqn:Hget.
  - injection Hfetch as <- <-. now rewrite Hget.
  - destruct (upstream E lat lng) as [msg | data]; [discriminate |].
    injection Hfetch as <- <-. cbn [OpenMeteo.cacheSet OpenMeteo.cache OpenMeteo.cacheGet].
    now rewrite String.eqb_refl.
Qed.

Lemma fetchWeather_then_cache_hit_witness :
  OpenMeteo.fetchWeather Sample.townsEnv
    (snd (OpenMeteo.fetchWeather Sample.townsEnv Sample.emptyWorld 1 0))
    (100001 # 100000) 0
  = (inr (OpenMeteo.mkWeatherResult (Some 15%Q) (Some 0%Q) None
                                    (Some "2024-03-01T10:00:00.000Z")),
     snd (OpenMeteo.fetchWeather Sample.townsEnv Sample.emptyWorld 1 0)).
Proof.
  apply (fetchWeather_then_cache_hit Sample.townsEnv Sample.emptyWorld _ 1 0
                                     (100001 # 100000) 0);
    vm_compute; reflexivity.
Defined.

(** X5.  A failed fetch is not cached: the cache is as before, exactly one
    upstream request was made, and fetching the same coordinates again goes
    upstream again and fails with the same message. *)
Theorem fetchWeather_failure_not_cached :
  forall (E : Env) (w w1 : OpenMeteo.World) (lat lng : Q) (message : string),
    OpenMeteo.fetchWeather E w lat lng = (inl message, w1) ->
    OpenMeteo.cache w1 = OpenMeteo.cache w
    /\ OpenMeteo.upstreamCalls w1 = (OpenMeteo.upstreamCalls w ++ [(lat, lng)])%list
    /\ OpenMeteo.dbCalls w1 = OpenMeteo.dbCalls w
    /\ OpenMeteo.fetchWeather E w1 lat lng
       = (inl message,
          OpenMeteo.mkWorld (OpenMeteo.cache w)
                            (OpenMeteo.upstreamCalls w ++ [(lat, lng); (lat, lng)])%list
                            (OpenMeteo.dbCalls w)).
Proof.
  intros E w w1 lat lng message Hfetch.
  unfold OpenMeteo.fetchWeather in *.
  destruct (OpenMeteo.cacheGet (OpenMeteo.cache w) (OpenMeteo.cacheKey E lat lng))
    as [cached |] eqn:Hget; [discriminate |].
  destruct (upstream E lat lng) as [msg | data] eqn:Hup; [| discriminate].
  injection Hfetch as <- <-. cbn [OpenMeteo.logUpstream OpenMeteo.cache OpenMeteo.upstreamCalls
                                   OpenMeteo.dbCalls].
  rewrite Hget. split; [reflexivity | split; [reflexivity | split; [reflexivity |]]].
  unfold OpenMeteo.logUpstream.
  cbn [OpenMeteo.cache OpenMeteo.upstreamCalls OpenMeteo.dbCalls].
  rewrite <- app_assoc. reflexivity.
Qed.

Lemma fetchWeather_failure_not_cached_witness :
  OpenMeteo.cache (snd (OpenMeteo.fetchWeather Sample.flakyEnv Sample.emptyWorld 13 0)) = []
  /\ OpenMeteo.upstreamCalls (snd (OpenMeteo.fetchWeather Sample.flakyEnv Sample.emptyWorld 13 0))
     = [(13%Q, 0%Q)]
  /\ OpenMeteo.dbCalls (snd (OpenMeteo.fetchWeather Sample.flakyEnv Sample.emptyWorld 13 0)) = []
  /\ OpenMeteo.fetchWeather Sample.flakyEnv
       (snd (OpenMeteo.fetchWeather Sample.flakyEnv Sample.emptyWorld 13 0)) 13 0
     = (inl "OpenMeteo fetch failed for 13,0: Network Error",
        OpenMeteo.mkWorld [] [(13%Q, 0%Q); (13%Q, 0%Q)] []).
Proof.
  apply (fetchWeather_failure_not_cached Sample.flakyEnv Sample.emptyWorld _ 13 0
           "OpenMeteo fetch failed for 13,0: Network Error").
  vm_compute. reflexivity.
Defined.

(** ** lib/openMeteo: the bulk fetcher and the shared state *)

(** X6.  [fetchWeatherForProperties] makes at most one upstream request per
    request of the list, each for the coordinates of one of them; it never
    touches the datastore, and whatever was cached before is still cached
    after. *)
Theorem fetchWeatherForProperties_effects :
  forall (E : Env) (props : list OpenMeteo.PropRef) (w : OpenMeteo.World),
    let w' := snd (OpenMeteo.fetchWeatherForProperties E w props) in
    OpenMeteo.dbCalls w' = OpenMeteo.dbCalls w
    /\ (exists calls,
          OpenMeteo.upstreamCalls w' = (OpenMeteo.upstreamCalls w ++ calls)%list
          /\ (List.length calls <= List.length props)%nat
          /\ incl calls (map (fun p => (OpenMeteo.r_lat p, OpenMeteo.r_lng p)) props))
    /\ (forall k v, OpenMeteo.cacheGet (OpenMeteo.cache w) k = Some v ->
                    OpenMeteo.cacheGet (OpenMeteo.cache w') k = Some v).
Proof.
  intros E props. induction props as [| p rest IH]; intros w; cbn zeta.
  - cbn. split; [reflexivity |]. split; [| tauto].
    exists []. rewrite app_nil_r. split; [reflexivity |]. split; [cbn; lia | apply incl_refl].
  - cbn [OpenMeteo.fetchWeatherForProperties].
    destruct (OpenMeteo.fetchWeather E w (OpenMeteo.r_lat p) (OpenMeteo.r_lng p))
      as [o w1] eqn:Hf.
    destruct (fetchWeather_effects E w w1 _ _ o Hf) as [Hdb [Hup Hcache]].
    specialize (IH w1). cbn zeta in IH.
    destruct (OpenMeteo.fetchWeatherForProperties E w1 rest) as [es w2].
    cbn [snd] in *. destruct IH as [Hdb' [[calls [Hup' [Hlen Hincl]]] Hcache']].
    split; [congruence |]. split.
    + destruct Hup as [Hup | Hup]; rewrite Hup in Hup'.
      * exists calls. split; [exact Hup' |]. split; [cbn; lia |].
        cbn [map]. now apply incl_tl.
      * exists ((OpenMeteo.r_lat p, OpenMeteo.r_lng p) :: calls).
        rewrite <- app_assoc in Hup'. split; [exact Hup' |]. split; [cbn; lia |].
        cbn [map]. apply incl_cons; [now left | now apply incl_tl].
    + intros k v Hk. apply Hcache'. now apply Hcache.
Qed.

(** X7.  When every request's key is cached, the bulk fetcher answers from the
    cache alone: every entry carries the cached weather and no error, and
    the state is unchanged (no upstream request at all). *)
Theorem fetchWeatherForProperties_all_cached :
  forall (E : Env) (w : OpenMeteo.World) (props : list OpenMeteo.PropRef),
    (forall p, In p props ->
       exists r, OpenMeteo.cacheGet (OpenMeteo.cache w)
                   (OpenMeteo.cacheKey E (OpenMeteo.r_lat p) (OpenMeteo.r_lng p)) = Some r) ->
    OpenMeteo.fetchWeatherForProperties E w props
    = (map (fun p =>
              OpenMeteo.mkPropWeather
                (OpenMeteo.r_id p) (OpenMeteo.r_lat p) (OpenMeteo.r_lng p)
                (OpenMeteo.cacheGet (OpenMeteo.cache w)
                   (OpenMeteo.cacheKey E (OpenMeteo.r_lat p) (OpenMeteo.r_lng p)))
                None)
           props, w).
Proof.
  intros E w props. induction props as [| p rest IH]; intros Hall; [reflexivity |].
  cbn [OpenMeteo.fetchWeatherForProperties map].
  destruct (Hall p (or_introl eq_refl)) as [r Hr].
  unfold OpenMeteo.fetchWeather. rewrite Hr.
  rewrite IH by (intros q Hq; apply Hall; now right). reflexivity.
Qed.

Lemma fetchWeatherForProperties_all_cached_witness :
  OpenMeteo.fetchWeatherForProperties Sample.townsEnv Cases2.warmWorld Cases2.townRequests
  = (map (fun p =>
            OpenMeteo.mkPropWeather
              (OpenMeteo.r_id p) (OpenMeteo.r_lat p) (OpenMeteo.r_lng p)
              (OpenMeteo.cacheGet (OpenMeteo.cache Cases2.warmWorld)
                 (OpenMeteo.cacheKey Sample.townsEnv (OpenMeteo.r_lat p) (OpenMeteo.r_lng p)))
              None)
         Cases2.townRequests, Cases2.warmWorld).
Proof.
  apply (fetchWeatherForProperties_all_cached Sample.townsEnv Cases2.warmWorld
                                              Cases2.townRequests).
  intros p [<- | [<- | [<- | []]]]; eexists; vm_compute; reflexivity.
Defined.

(** ** lib/openMeteo: the humidity sample *)

Lemma extractHumidity_nearest_witness :
  exists i s t,
    nth_error Cases2.morningTimes i = Some s
    /\ OpenMeteo.parseTime Cases2.tenPastTen s = Some t
    /\ (forall j s' t', nth_error Cases2.morningTimes j = Some s' ->
                        OpenMeteo.parseTime Cases2.tenPastTen s' = Some t' ->
                        distance Cases2.tenPastTen t <= distance Cases2.tenPastTen t')
    /\ OpenMeteo.extractHumidity Cases2.tenPastTen
         (hourlyData None Cases2.morningTimes Cases2.morningHumidities)
       = numberAt Cases2.morningHumidities i.
Proof.
  apply (extractHumidity_nearest Cases2.tenPastTen None Cases2.morningTimes
                                 Cases2.morningHumidities).
  - reflexivity.
  - exists "2024-03-01T09:00"%string, 1709283600000. split; [now left | reflexivity].
Defined.

(** X10.  The humidity reported is a sample of the series; there is none when the
    series is empty or its two arrays differ in length. *)
Theorem extractHumidity_from_series :
  forall (E : Env) (cw : option CurrentWeather) (times : list string)
         (hums : list (option Q)),
    (forall h, OpenMeteo.extractHumidity E (hourlyData cw times hums) = Some h ->
               In (Some h) hums)
    /\ (times = [] \/ hums = [] \/ List.length times <> List.length hums ->
        OpenMeteo.extractHumidity E (hourlyData cw times hums) = None).
Proof.
  intros E cw times hums. unfold OpenMeteo.extractHumidity, hourlyData.
  cbn [hourly time relativehumidity_2m]. split.
  - intros h. destruct (_ && _); [| discriminate].
    destruct (nth_error hums _) as [[x |] |] eqn:Hn; try discriminate.
    intros [= <-]. eapply nth_error_In; eassumption.
  - intros [-> | [-> | Hne]].
    + reflexivity.
    + now rewrite andb_false_r.
    + apply Nat.eqb_neq in Hne. rewrite Hne. now rewrite andb_false_r.
Qed.

Section FirstOfNearest.

Import OpenMeteo.

Variable E : Env.

(** The loop replaces its best sample only by a strictly nearer one, so
    every parsed sample before the final index is strictly farther. *)
Lemma nearestLoop_first (times : list string) :
  forall (i bestIdx : nat) (bestDiff : option Z),
    (bestIdx <= i)%nat ->
    let r := nearestLoop E times i bestIdx bestDiff in
    ((fst r = bestIdx /\ snd r = bestDiff)
     \/ ((i <= fst r)%nat /\ ltBestStrict (snd r) bestDiff))
    /\ (forall j s t, nth_error times j = Some s -> parseTime E s = Some t ->
                      (i + j < fst r)%nat ->
                      ltBestStrict (snd r) (Some (distance E t))).
Proof.
  induction times as [| s0 rest IH]; intros i bestIdx bestDiff Hle; cbn [nearestLoop].
  - cbn zeta. cbn [fst snd]. split; [now left |]. intros j s t _ _ Hj. lia.
  - destruct (parseTime E s0) as [t0 |] eqn:Hp.
    + fold (distance E t0). destruct (ltBest (distance E t0) bestDiff) eqn:Hlt.
      * specialize (IH (S i) i (Some (distance E t0)) ltac:(lia)). cbn zeta in IH |- *.
        destruct IH as [Hsrc Hfirst]. split.
        -- right. destruct Hsrc as [[Hf Hs] | [Hf Hs]].
           ++ rewrite Hf, Hs. split; [lia |]. cbn.
              destruct bestDiff as [b |]; [| exact I]. cbn in Hlt. now apply Z.ltb_lt.
           ++ split; [lia |]. destruct (snd _) as [x |]; [| contradiction]. cbn in Hs |- *.
              destruct bestDiff as [b |]; [| exact I]. cbn in Hlt. apply Z.ltb_lt in Hlt. lia.
        -- intros [| j] s t Hn Hs Hj; cbn [nth_error] in Hn.
           ++ injection Hn as <-. rewrite Hp in Hs. injection Hs as <-.
              destruct Hsrc as [[Hf _] | [_ Hs']]; [lia | exact Hs'].
           ++ apply (Hfirst j s t Hn Hs). lia.
      * specialize (IH (S i) bestIdx bestDiff ltac:(lia)). cbn zeta in IH |- *.
        destruct IH as [Hsrc Hfirst]. split.
        -- destruct Hsrc as [Hsame | [Hf Hs]]; [now left | right]. split; [lia | exact Hs].
        -- intros [| j] s t Hn Hs Hj; cbn [nth_error] in Hn.
           ++ injection Hn as <-. rewrite Hp in Hs. injection Hs as <-.
              destruct Hsrc as [[Hf _] | [_ Hs']]; [lia |].
              destruct bestDiff as [b |]; [| discriminate]. cbn in Hlt.
              apply Z.ltb_ge in Hlt. destruct (snd _) as [x |]; [| contradiction].
              cbn in Hs' |- *. lia.
           ++ apply (Hfirst j s t Hn Hs). lia.
    + specialize (IH (S i) bestIdx bestDiff ltac:(lia)). cbn zeta in IH |- *.
      destruct IH as [Hsrc Hfirst]. split.
      * destruct Hsrc as [Hsame | [Hf Hs]]; [now left | right]. split; [lia | exact Hs].
      * intros [| j] s t Hn Hs Hj; cbn [nth_error] in Hn.
        -- injection Hn as <-. congruence.
        -- apply (Hfirst j s t Hn Hs). lia.
Qed.

End FirstOfNearest.

(** X9.  Among equally near samples the earliest is taken: every parsable sample
    before the chosen one is strictly farther from now. *)
Theorem extractHumidity_first_of_nearest :
  forall (E : Env) (cw : option CurrentWeather) (times : list string)
         (hums : list (option Q)),
    List.length times = List.length hums ->
    (exists s t, In s times /\ OpenMeteo.parseTime E s = Some t) ->
    exists i s t,
      nth_error times i = Some s /\ OpenMeteo.parseTime E s = Some t
      /\ (forall j s' t', (j < i)%nat -> nth_error times j = Some s' ->
                          OpenMeteo.parseTime E s' = Some t' ->
                          distance E t < distance E t')
      /\ OpenMeteo.extractHumidity E (hourlyData cw times hums) = numberAt hums i.
Proof.
  intros E cw times hums Hlen [s1 [t1 [Hin Hp1]]].
  destruct (In_nth_error _ _ Hin) as [j1 Hj1].
  destruct (nearestLoop_spec E times 0 0 None) as [Hsrc [_ Hmin]].
  destruct (nearestLoop_first E times 0 0 None (Nat.le_refl 0)) as [_ Hfirst].
  cbn zeta in *.
  destruct Hsrc as [Hinit | [j [s [t [Hf [Hn [Hs Hd]]]]]]].
  - specialize (Hmin j1 s1 t1 Hj1 Hp1). rewrite Hinit in Hmin. contradiction.
  - exists j, s, t. split; [assumption |]. split; [assumption |]. split.
    + intros j' s' t' Hj' Hn' Hs'.
      specialize (Hfirst j' s' t' Hn' Hs' ltac:(rewrite Hf; lia)).
      rewrite Hd in Hfirst. exact Hfirst.
    + unfold OpenMeteo.extractHumidity, hourlyData, numberAt.
      cbn [hourly time relativehumidity_2m].
      rewrite <- Hlen, Nat.eqb_refl.
      destruct times as [| s0 rest]; [destruct Hin |].
      cbn [List.length Nat.eqb negb andb]. rewrite Hf. reflexivity.
Qed.

Lemma extractHumidity_first_of_nearest_witness :
  exists i s t,
    nth_error Cases3.aroundTimes i = Some s
    /\ OpenMeteo.parseTime Cases3.halfPast s = Some t
    /\ (forall j s' t', (j < i)%nat -> nth_error Cases3.aroundTimes j = Some s' ->
                        OpenMeteo.parseTime Cases3.halfPast s' = Some t' ->
                        distance Cases3.halfPast t < distance Cases3.halfPast t')
    /\ OpenMeteo.extractHumidity Cases3.halfPast
         (hourlyData None Cases3.aroundTimes Cases3.aroundHumidities)
       = numberAt Cases3.aroundHumidities i.
Proof.
  apply (extractHumidity_first_of_nearest Cases3.halfPast None Cases3.aroundTimes
                                          Cases3.aroundHumidities).
  - reflexivity.
  - exists "2024-03-01T10:00"%string, 1709287200000. split; [now left | reflexivity].
Defined.

(** On the tie of the example the earlier sample, 55, is the one reported. *)
Example extractHumidity_tie :
  OpenMeteo.extractHumidity Cases3.halfPast
    (hourlyData None Cases3.aroundTimes Cases3.aroundHumidities) = Some 55%Q.
Proof. vm_compute. reflexivity. Qed.

(** ** use-cases/getProperties: the batch scan *)

Section ScanFacts.

Import OpenMeteo GetProperties.

(** The in-memory table answers integer skips with the next rows. *)
Lemma sample_env_table (rows : list Property) (up : Q -> Q -> string + RawData)
      (nowMs : Z) (iso : string) (n : nat) :
  dbFindMany (Sample.env rows up nowMs iso) None (inject_Z (Z.of_nat n))
             (Z.of_nat BATCH_SIZE)
  = firstn BATCH_SIZE (skipn n rows).
Proof.
  cbn [dbFindMany Sample.env]. unfold Sample.tableFindMany.
  rewrite Qfloor_Z, !Nat2Z.id. cbn [Sample.matchesWhere].
  now rewrite filter_true.
Qed.

Lemma fetchWeatherForProperties_db (E : Env) (props : list PropRef) :
  forall w, dbCalls (snd (fetchWeatherForProperties E w props)) = dbCalls w.
Proof.
  induction props as [| p rest IH]; intros w; cbn [fetchWeatherForProperties];
    [reflexivity |].
  destruct (fetchWeather E w (r_lat p) (r_lng p)) as [o w1] eqn:Hf.
  destruct (fetchWeather_effects E w w1 _ _ o Hf) as [Hdb _].
  specialize (IH w1). destruct (fetchWeatherForProperties E w1 rest). cbn in *. congruence.
Qed.

Lemma toFetchOf_length (dbBatch : list Property) :
  (List.length (GetProperties.toFetchOf dbBatch) <= List.length dbBatch)%nat.
Proof.
  induction dbBatch as [| p rest IH]; cbn [GetProperties.toFetchOf]; [cbn; lia |].
  destruct (p_lat p), (p_lng p); cbn [List.length]; lia.
Qed.

End ScanFacts.

Lemma scan_terminates_witness :
  exists res,
    GetProperties.scan Sample.townsEnv (S (List.length Cases4.townRows)) Cases4.mildAndClear
                       Sample.emptyWorld [] 0 true = Some res.
Proof.
  apply (scan_terminates Sample.townsEnv Cases4.mildAndClear Cases4.townRows).
  intros n. apply (sample_env_table Cases4.townRows).
Defined.

(** For a whole page number the loop test [filtered.length < page * take]
    is the comparison of two integers. *)
Lemma covers_whole_page (c : GetProperties.Criteria) (p : Z) (n : Z) :
  wholePage c p ->
  Qltb (inject_Z n) (GetProperties.page c * inject_Z (GetProperties.take c))
  = (n <? p * GetProperties.take c).
Proof.
  intros [_ [Hpage _]].
  rewrite (Qltb_comp (inject_Z n) (inject_Z n) _ (inject_Z (p * GetProperties.take c)));
    [apply Qltb_inject | reflexivity | rewrite Hpage, inject_Z_mult; reflexivity].
Qed.

(** X12.  A short batch with at least one row that has coordinates is the
    last one queried: for a whole page number not yet covered, the loop
    makes that one query, extends the accumulator by rows of the batch and
    returns. *)
Theorem scan_stops_after_short_batch :
  forall (E : Env) (c : GetProperties.Criteria) (p : Z) (fuel : nat) (w : OpenMeteo.World)
         (filtered : list GetProperties.Row) (totalChecked : nat),
    let skip := inject_Z (Z.of_nat totalChecked) in
    let dbBatch := dbFindMany E (GetProperties.where_ c) skip
                              (Z.of_nat GetProperties.BATCH_SIZE) in
    wholePage c p ->
    Z.of_nat (List.length filtered) < p * GetProperties.take c ->
    (0 < List.length dbBatch < GetProperties.BATCH_SIZE)%nat ->
    GetProperties.toFetchOf dbBatch <> [] ->
    exists rows w',
      GetProperties.scan E (S fuel) c w filtered totalChecked true
      = Some ((filtered ++ rows)%list, w')
      /\ (List.length rows <= List.length dbBatch)%nat
      /\ OpenMeteo.dbCalls w'
         = (OpenMeteo.dbCalls w
            ++ [OpenMeteo.FindMany (GetProperties.where_ c) skip
                                   (Z.of_nat GetProperties.BATCH_SIZE)])%list.
Proof.
  intros E c p fuel w filtered tc skip dbBatch Hwhole Hcond Hlen Hfetch.
  cbn [GetProperties.scan].
  rewrite (covers_whole_page c p _ Hwhole).
  apply Z.ltb_lt in Hcond. rewrite Hcond. cbn [andb].
  fold skip. fold dbBatch.
  set (q := OpenMeteo.FindMany (GetProperties.where_ c) skip
                               (Z.of_nat GetProperties.BATCH_SIZE)).
  destruct (Nat.eqb_spec (List.length dbBatch) 0) as [? | _]; [lia |].
  destruct (Nat.eqb_spec (List.length (GetProperties.toFetchOf dbBatch)) 0) as [Hz | _].
  { apply length_zero_iff_nil in Hz. contradiction. }
  pose proof (fetchWeatherForProperties_db E (GetProperties.toFetchOf dbBatch)
                                             (OpenMeteo.logDb w q)) as Hdb.
  pose proof (fetchWeatherForProperties_length E (GetProperties.toFetchOf dbBatch)
                                                 (OpenMeteo.logDb w q)) as Hent.
  destruct (OpenMeteo.fetchWeatherForProperties E (OpenMeteo.logDb w q)
                                                 (GetProperties.toFetchOf dbBatch))
    as [pw w2].
  cbn [fst snd] in Hdb, Hent.
  destruct (Nat.ltb_spec (List.length dbBatch) GetProperties.BATCH_SIZE) as [_ | ?];
    [| lia].
  rewrite scan_done by reflexivity.
  eexists. exists w2. split; [reflexivity |]. split; [| exact Hdb].
  rewrite length_map.
  pose proof (filter_length_le (GetProperties.passes c) pw) as Hf.
  pose proof (toFetchOf_length dbBatch) as Ht. lia.
Qed.

Lemma scan_stops_after_short_batch_witness :
  exists rows w',
    GetProperties.scan Sample.townsEnv 1 Cases4.mildAndClear Sample.emptyWorld [] 0 true
    = Some (([] ++ rows)%list, w')
    /\ (List.length rows
        <= List.length (dbFindMany Sample.townsEnv
                                   (GetProperties.where_ Cases4.mildAndClear)
                                   (inject_Z (Z.of_nat 0))
                                   (Z.of_nat GetProperties.BATCH_SIZE)))%nat
    /\ OpenMeteo.dbCalls w'
       = (OpenMeteo.dbCalls Sample.emptyWorld
          ++ [OpenMeteo.FindMany (GetProperties.where_ Cases4.mildAndClear)
                                 (inject_Z (Z.of_nat 0))
                                 (Z.of_nat GetProperties.BATCH_SIZE)])%list.
Proof.
  apply (scan_stops_after_short_batch Sample.townsEnv Cases4.mildAndClear 1 0
                                      Sample.emptyWorld [] 0).
  - split; [lia | split; [reflexivity | cbn; lia]].
  - cbn. lia.
  - vm_compute. lia.
  - vm_compute. discriminate.
Defined.

(** X13.  The scan never gives up early: when it returns, for a whole page
    number, the accumulator covers the requested page, or the last datastore
    query came back with fewer rows than the batch size. *)
Theorem scan_stops_only_when :
  forall (E : Env) (fuel : nat) (c : GetProperties.Criteria) (p : Z)
         (w w' : OpenMeteo.World) (filtered res : list GetProperties.Row)
         (totalChecked : nat),
    wholePage c p ->
    GetProperties.scan E fuel c w filtered totalChecked true = Some (res, w') ->
    p * GetProperties.take c <= Z.of_nat (List.length res)
    \/ exists n qs,
         OpenMeteo.dbCalls w'
         = (qs ++ [OpenMeteo.FindMany (GetProperties.where_ c) (inject_Z (Z.of_nat n))
                                      (Z.of_nat GetProperties.BATCH_SIZE)])%list
         /\ (List.length (dbFindMany E (GetProperties.where_ c) (inject_Z (Z.of_nat n))
                                     (Z.of_nat GetProperties.BATCH_SIZE))
             < GetProperties.BATCH_SIZE)%nat.
Proof.
  intros E fuel c p w w' filtered res tc Hwhole. revert w w' filtered res tc.
  induction fuel as [| fuel IH]; intros w w' filtered res tc.
  - cbn [GetProperties.scan andb]. rewrite (covers_whole_page c p _ Hwhole).
    destruct (Z.ltb_spec (Z.of_nat (List.length filtered)) (p * GetProperties.take c));
      [discriminate |].
    intros [= <- <-]. now left.
  - cbn [GetProperties.scan andb]. rewrite (covers_whole_page c p _ Hwhole).
    destruct (Z.ltb_spec (Z.of_nat (List.length filtered)) (p * GetProperties.take c)).
    2:{ intros [= <- <-]. now left. }
    set (q := OpenMeteo.FindMany (GetProperties.where_ c) (inject_Z (Z.of_nat tc))
                                 (Z.of_nat GetProperties.BATCH_SIZE)).
    set (dbBatch := dbFindMany E (GetProperties.where_ c) (inject_Z (Z.of_nat tc))
                               (Z.of_nat GetProperties.BATCH_SIZE)).
    destruct (Nat.eqb_spec (List.length dbBatch) 0) as [Hz | Hnz].
    + intros [= <- <-]. right. exists tc, (OpenMeteo.dbCalls w). split; [reflexivity |].
      fold dbBatch. rewrite Hz. unfold GetProperties.BATCH_SIZE. lia.
    + destruct (List.length (GetProperties.toFetchOf dbBatch) =? 0)%nat.
      * apply IH.
      * pose proof (fetchWeatherForProperties_db E (GetProperties.toFetchOf dbBatch)
                                                 (OpenMeteo.logDb w q)) as Hdb.
        destruct (OpenMeteo.fetchWeatherForProperties E (OpenMeteo.logDb w q)
                                                       (GetProperties.toFetchOf dbBatch))
          as [pw w2].
        cbn [snd] in Hdb.
        destruct (Nat.ltb_spec (List.length dbBatch) GetProperties.BATCH_SIZE) as [Hshort | _].
        -- rewrite scan_done by reflexivity. intros [= <- <-]. right.
           exists tc, (OpenMeteo.dbCalls w). split; [exact Hdb | exact Hshort].
        -- apply IH.
Qed.

Lemma scan_stops_only_when_witness :
  1 * GetProperties.take Cases4.mildAndClear <= Z.of_nat (List.length Cases4.scanRows)
  \/ exists n qs,
       OpenMeteo.dbCalls Cases4.scanWorld
       = (qs ++ [OpenMeteo.FindMany (GetProperties.where_ Cases4.mildAndClear)
                                    (inject_Z (Z.of_nat n))
                                    (Z.of_nat GetProperties.BATCH_SIZE)])%list
       /\ (List.length (dbFindMany Sample.townsEnv (GetProperties.where_ Cases4.mildAndClear)
                                   (inject_Z (Z.of_nat n))
                                   (Z.of_nat GetProperties.BATCH_SIZE))
           < GetProperties.BATCH_SIZE)%nat.
Proof.
  apply (scan_stops_only_when Sample.townsEnv 1 Cases4.mildAndClear 1 Sample.emptyWorld
                              Cases4.scanWorld [] Cases4.scanRows 0).
  - split; [lia | split; [reflexivity | cbn; lia]].
  - vm_compute. reflexivity.
Defined.

(** ** use-cases/getProperties: what the filtered response holds *)

Section FilterFacts.

Import OpenMeteo GetProperties.

Lemma belowMin_false (bound v : option Q) : belowMin bound v = false -> withinMin bound v.
Proof.
  destruct bound as [b |]; cbn; [| trivial].
  destruct v as [x |]; [| discriminate]. intros H. exists x. split; [reflexivity |].
  unfold Qltb in H. apply negb_false_iff in H. now apply Qle_bool_iff.
Qed.

Lemma aboveMax_false (bound v : option Q) : aboveMax bound v = false -> withinMax bound v.
Proof.
  destruct bound as [b |]; cbn; [| trivial].
  destruct v as [x |]; [| discriminate]. intros H. exists x. split; [reflexivity |].
  unfold Qltb in H. apply negb_false_iff in H. now apply Qle_bool_iff.
Qed.

(** A code that matches a list of valid names is labelled with one of them. *)
Lemma matches_label (code : Q) (gs : list string) :
  Forall (fun g => In g Weather.WEATHER_GROUP_KEYS) gs ->
  Weather.matchesWeatherGroup (Some code) (Some gs) = true ->
  gs <> [] ->
  exists g, Weather.getWeatherGroupLabel (Some code) = Some g /\ In g gs.
Proof.
  intros Hvalid Hm Hne.
  assert (Hfilter : filter (Weather.includes Weather.WEATHER_GROUP_KEYS) gs = gs).
  { apply forallb_filter_id. apply forallb_forall. intros g Hg. apply includes_In.
    rewrite Forall_forall in Hvalid. now apply Hvalid. }
  destruct gs as [| g0 gs]; [congruence |].
  unfold Weather.matchesWeatherGroup in Hm. rewrite Hfilter in Hm.
  apply existsb_exists in Hm. destruct Hm as [g [Hin Hhas]].
  exists g. split; [| exact Hin]. apply label_belongs. now apply groupHas_belongs.
Qed.

Lemma idToPropGet_found (dbBatch : list Property) (id : Z) :
  (exists p, In p dbBatch /\ p_id p = id) ->
  exists q, idToPropGet dbBatch id = Some q /\ In q dbBatch /\ p_id q = id.
Proof.
  induction dbBatch as [| p0 rest IH]; intros [p [Hin Hid]]; [destruct Hin |].
  cbn [idToPropGet].
  destruct (idToPropGet rest id) as [q |] eqn:Hq.
  - destruct rest as [| p1 rest']; [discriminate |].
    assert (Hex : exists q', Some q = Some q' /\ In q' (p1 :: rest') /\ p_id q' = id).
    { destruct Hin as [<- | Hin].
      - clear IH. revert q Hq. generalize (p1 :: rest'). intros l.
        induction l as [| a l IHl]; cbn [idToPropGet]; [discriminate |].
        intros q. destruct (idToPropGet l id) as [q1 |] eqn:Hq1.
        + intros [= <-]. destruct (IHl q1 eq_refl) as [q' [Heq [Hin' Hid']]].
          exists q'. split; [exact Heq |]. split; [now right | exact Hid'].
        + destruct (Z.eqb_spec (p_id a) id) as [Ha | _]; [| discriminate].
          intros [= <-]. exists a. split; [reflexivity |]. split; [now left | exact Ha].
      - apply IH. now exists p. }
    destruct Hex as [q' [[= <-] [Hin' Hid']]].
    exists q. split; [reflexivity |]. split; [now right | exact Hid'].
  - destruct Hin as [<- | Hin].
    + rewrite Hid, Z.eqb_refl. exists p0. split; [reflexivity |]. split; [now left | exact Hid].
    + destruct (IH (ex_intro _ p (conj Hin Hid))) as [q [Habs _]]. discriminate.
Qed.

Lemma toFetchOf_origin (dbBatch : list Property) (r : PropRef) :
  In r (toFetchOf dbBatch) ->
  exists p, In p dbBatch /\ p_id p = r_id r
            /\ p_lat p = Some (r_lat r) /\ p_lng p = Some (r_lng r).
Proof.
  induction dbBatch as [| p0 rest IH]; cbn [toFetchOf]; [intros [] |].
  destruct (p_lat p0) as [lat |] eqn:Hlat; destruct (p_lng p0) as [lng |] eqn:Hlng;
    try (intros H; destruct (IH H) as [p [Hin Hp]]; exists p; split; [now right | exact Hp]).
  intros [<- | H].
  - exists p0. cbn. split; [now left |]. repeat split; assumption.
  - destruct (IH H) as [p [Hin Hp]]. exists p. split; [now right | exact Hp].
Qed.

Lemma entries_settled (E : Env) (w : World) (props : list PropRef) (e : PropWeather) :
  In e (fst (fetchWeatherForProperties E w props)) ->
  exists p o, In p props /\ e = settle p o.
Proof.
  intros He. destruct (In_nth_error _ _ He) as [i Hi].
  destruct (nth_error props i) as [p |] eqn:Hp.
  - destruct (fetchWeatherForProperties_nth E props w i p Hp) as [o [_ [Hs _]]].
    exists p, o. split; [eapply nth_error_In; eassumption | congruence].
  - apply nth_error_None in Hp.
    assert (Hlt : (i < List.length (fst (fetchWeatherForProperties E w props)))%nat).
    { apply nth_error_Some. congruence. }
    rewrite fetchWeatherForProperties_length in Hlt. lia.
Qed.

Variable E : Env.
Variable c : Criteria.
Hypothesis valid : Forall (fun g => In g Weather.WEATHER_GROUP_KEYS) (weatherGroups c).

Lemma attach_satisfies (w : World) (dbBatch : list Property) (e : PropWeather) :
  In e (fst (fetchWeatherForProperties E w (toFetchOf dbBatch))) ->
  passes c e = true ->
  rowSatisfies c (attach dbBatch e).
Proof.
  intros He Hpass.
  destruct (entries_settled E w _ e He) as [p [o [Hp ->]]].
  destruct (toFetchOf_origin dbBatch p Hp) as [p' [Hin [Hid _]]].
  destruct (idToPropGet_found dbBatch (r_id p) (ex_intro _ p' (conj Hin Hid)))
    as [q [Hq _]].
  unfold attach, passes in *. destruct o as [msg | wr]; cbn [settle weather w_id weatherError] in *;
    [discriminate |].
  rewrite Hq. cbn [rowSatisfies].
  destruct (belowMin (tempMin c) (temperature wr)) eqn:H1; [discriminate |].
  destruct (aboveMax (tempMax c) (temperature wr)) eqn:H2; [discriminate |].
  destruct (belowMin (humMin c) (humidity wr)) eqn:H3; [discriminate |].
  destruct (aboveMax (humMax c) (humidity wr)) eqn:H4; [discriminate |].
  split; [now apply belowMin_false |]. split; [now apply aboveMax_false |].
  split; [now apply belowMin_false |]. split; [now apply aboveMax_false |].
  split; [reflexivity |]. intros Hne.
  destruct (weatherGroups c) as [| g0 gs] eqn:Hg; [congruence |].
  cbn [List.length Nat.eqb negb] in Hpass.
  destruct (weathercode wr) as [code |]; [| discriminate].
  apply matches_label; [exact valid | exact Hpass | discriminate].
Qed.

Lemma scan_satisfies (fuel : nat) :
  forall (w w' : World) (filtered res : list Row) (totalChecked : nat) (hasMore : bool),
    Forall (rowSatisfies c) filtered ->
    scan E fuel c w filtered totalChecked hasMore = Some (res, w') ->
    Forall (rowSatisfies c) res.
Proof.
  induction fuel as [| fuel IH]; intros w w' filtered res tc hasMore Hacc; cbn [scan].
  - destruct (hasMore && Qltb _ _); [discriminate |]. now intros [= <- <-].
  - destruct (hasMore && Qltb _ _); [| now intros [= <- <-]].
    set (dbBatch := dbFindMany E (where_ c) (inject_Z (Z.of_nat tc)) (Z.of_nat BATCH_SIZE)).
    destruct (List.length dbBatch =? 0)%nat; [now intros [= <- <-] |].
    destruct (List.length (toFetchOf dbBatch) =? 0)%nat; [now apply IH |].
    destruct (fetchWeatherForProperties E _ (toFetchOf dbBatch)) as [pw w2] eqn:Hf.
    apply IH. apply Forall_app. split; [exact Hacc |].
    apply Forall_forall. intros r Hr. apply in_map_iff in Hr.
    destruct Hr as [e [<- He]]. apply filter_In in He. destruct He as [He Hpass].
    apply (attach_satisfies (logDb w (FindMany (where_ c) (inject_Z (Z.of_nat tc))
                                               (Z.of_nat BATCH_SIZE))) dbBatch e);
      [rewrite Hf; exact He | exact Hpass].
Qed.

End FilterFacts.

Lemma slice_incl {A : Type} (l : list A) (start end_ : Q) (x : A) :
  In x (GetProperties.slice l start end_) -> In x l.
Proof.
  unfold GetProperties.slice. intros H.
  match type of H with
  | In x (firstn ?n (skipn ?k l)) =>
      rewrite <- (firstn_skipn k l); apply in_or_app; right;
      rewrite <- (firstn_skipn n (skipn k l)); apply in_or_app; now left
  end.
Qed.

(** X14.  Every row of a filtered response meets the request: its weather is
    there and no fetch error is attached, each supplied temperature or
    humidity bound holds for a value that is present, and its label is the
    group of its weather code, one of the requested groups when groups were
    requested. *)
Theorem getProperties_rows_satisfy_filters :
  forall (E : Env) (fuel : nat) (w : OpenMeteo.World) (req : GetProperties.Request)
         (c : GetProperties.Criteria),
    GetProperties.normalize E req = Some c ->
    GetProperties.hasWeatherFilters c = true ->
    Forall (rowSatisfies c) (dataOf (responseOf (GetProperties.getProperties E fuel w req))).
Proof.
  intros E fuel w req c Hnorm Hfilters.
  unfold GetProperties.getProperties. rewrite Hnorm, Hfilters. cbn [negb].
  destruct (GetProperties.scan E fuel c w [] 0 true) as [[filtered w'] |] eqn:Hscan;
    [| constructor].
  cbn [responseOf dataOf GetProperties.paginate].
  assert (Hall : Forall (rowSatisfies c) filtered).
  { apply (scan_satisfies E c) with (fuel := fuel) (w := w) (w' := w') (filtered := [])
                                    (totalChecked := 0%nat) (hasMore := true);
      [| constructor | exact Hscan].
    unfold GetProperties.normalize in Hnorm.
    destruct (Utils.parseWeatherGroups (GetProperties.q_weather req)) as [gs |] eqn:Hg;
      [| discriminate].
    injection Hnorm as <-. cbn [GetProperties.weatherGroups].
    eapply parseWeatherGroups_valid; eassumption. }
  apply Forall_forall. intros r Hr. apply slice_incl in Hr.
  rewrite Forall_forall in Hall. now apply Hall.
Qed.

Lemma getProperties_rows_satisfy_filters_witness :
  Forall (rowSatisfies Cases4.mildAndClear)
         (dataOf (responseOf (GetProperties.getProperties Sample.townsEnv 1 Sample.emptyWorld
                                                          Sample.mildAndClearRequest))).
Proof.
  apply (getProperties_rows_satisfy_filters Sample.townsEnv 1 Sample.emptyWorld
                                            Sample.mildAndClearRequest Cases4.mildAndClear).
  - vm_compute. reflexivity.
  - reflexivity.
Defined.


(** ** use-cases/getProperties: the handler as a whole *)

(** X15.  On a finite table the handler answers every request it can normalise:
    with one unit of fuel per table row and one more, it returns a JSON body
    carrying the normalised [page] and [take]. *)
Theorem getProperties_answers :
  forall (E : Env) (w : OpenMeteo.World) (req : GetProperties.Request)
         (c : GetProperties.Criteria) (rows : list Property),
    GetProperties.normalize E req = Some c ->
    (forall n : nat,
       dbFindMany E (GetProperties.where_ c) (inject_Z (Z.of_nat n))
                  (Z.of_nat GetProperties.BATCH_SIZE)
       = firstn GetProperties.BATCH_SIZE (skipn n rows)) ->
    exists data total hasNextPage w',
      GetProperties.getProperties E (S (List.length rows)) w req
      = Some (GetProperties.Json data (GetProperties.page c) (GetProperties.take c)
                                 total hasNextPage, w').
Proof.
  intros E w req c rows Hnorm Htable.
  unfold GetProperties.getProperties. rewrite Hnorm.
  destruct (GetProperties.hasWeatherFilters c); cbn [negb].
  - destruct (scan_enough_fuel E c rows Htable (S (List.length rows)) w [] 0%nat true)
      as [[filtered w'] Hscan]; [lia | lia |].
    rewrite Hscan. unfold GetProperties.paginate. do 4 eexists. reflexivity.
  - unfold GetProperties.fastPath. do 4 eexists. reflexivity.
Qed.

Lemma getProperties_answers_witness :
  exists data total hasNextPage w',
    GetProperties.getProperties Sample.townsEnv (S (List.length Cases4.townRows))
                                Sample.emptyWorld Sample.mildAndClearRequest
    = Some (GetProperties.Json data (GetProperties.page Cases4.mildAndClear)
                               (GetProperties.take Cases4.mildAndClear)
                               total hasNextPage, w').
Proof.
  apply (getProperties_answers Sample.townsEnv Sample.emptyWorld Sample.mildAndClearRequest
                               Cases4.mildAndClear Cases4.townRows).
  - vm_compute. reflexivity.
  - intros n. apply (sample_env_table Cases4.townRows).
Defined.

(** X16.  The page of a filtered response, for an integer page number [p >= 1]
    and [take] in [1, 200]: it never holds more than [take] rows, it holds
    exactly [take] when [hasNextPage] is set, and it is empty exactly when
    the accumulator has no more than [(p-1)*take] rows. *)
Theorem paginate_page_size :
  forall (c : GetProperties.Criteria) (filtered : list GetProperties.Row) (p : Z),
    1 <= p ->
    (GetProperties.page c == inject_Z p)%Q ->
    1 <= GetProperties.take c <= 200 ->
    exists data hasNextPage,
      GetProperties.paginate c filtered
      = GetProperties.Json data (GetProperties.page c) (GetProperties.take c)
                           (Z.of_nat (List.length filtered)) hasNextPage
      /\ Z.of_nat (List.length data) <= GetProperties.take c
      /\ (hasNextPage = true -> Z.of_nat (List.length data) = GetProperties.take c)
      /\ (data = [] <->
          Z.of_nat (List.length filtered) <= (p - 1) * GetProperties.take c).
Proof.
  intros c filtered p Hp Hpage Htake.
  unfold GetProperties.paginate.
  set (t := GetProperties.take c) in *.
  set (start := ((GetProperties.page c - 1) * inject_Z t)%Q).
  assert (Hstart : (start == inject_Z ((p - 1) * t))%Q).
  { subst start. rewrite Hpage, inject_Z_mult. unfold Z.sub.
    rewrite inject_Z_plus, inject_Z_opp. reflexivity. }
  assert (Hend : (start + inject_Z t == inject_Z ((p - 1) * t + t))%Q).
  { rewrite Hstart, <- inject_Z_plus. reflexivity. }
  rewrite (slice_window filtered start (start + inject_Z t)%Q ((p - 1) * t) t Hstart Hend)
    by nia.
  rewrite (Qltb_comp _ (inject_Z ((p - 1) * t + t)) _
                     (inject_Z (Z.of_nat (List.length filtered))) Hend (Qeq_refl _)).
  rewrite Qltb_inject.
  do 2 eexists. split; [reflexivity |].
  assert (Hlen : List.length (firstn (Z.to_nat t)
                                     (skipn (Z.to_nat ((p - 1) * t)) filtered))
                 = Nat.min (Z.to_nat t) (List.length filtered - Z.to_nat ((p - 1) * t))).
  { now rewrite length_firstn, length_skipn. }
  split; [rewrite Hlen; lia |]. split.
  - intros Hnext. apply Z.ltb_lt in Hnext. rewrite Hlen. nia.
  - rewrite <- length_zero_iff_nil, Hlen. split; intros H; nia.
Qed.

Lemma paginate_page_size_witness :
  exists data hasNextPage,
    GetProperties.paginate Sample.secondPage Sample.fiveRows
    = GetProperties.Json data (GetProperties.page Sample.secondPage)
                         (GetProperties.take Sample.secondPage)
                         (Z.of_nat (List.length Sample.fiveRows)) hasNextPage
    /\ Z.of_nat (List.length data) <= GetProperties.take Sample.secondPage
    /\ (hasNextPage = true ->
        Z.of_nat (List.length data) = GetProperties.take Sample.secondPage)
    /\ (data = [] <->
        Z.of_nat (List.length Sample.fiveRows)
        <= (2 - 1) * GetProperties.take Sample.secondPage).
Proof.
  apply (paginate_page_size Sample.secondPage Sample.fiveRows 2);
    [lia | reflexivity | cbn; lia].
Defined.

(** ** lib/openMeteo: what sharing a cache key means *)

Section KeyDistance.

Import OpenMeteo.

Lemma rounded_close (x y : Q) :
  rounded 4 x = rounded 4 y -> (Qabs (x - y) < 1 # 10000)%Q.
Proof.
  unfold rounded. intros [= Hsign Hn].
  pose proof (nearestScaled_bounds (Qabs x) (Qabs_nonneg x)) as [Hx1 Hx2].
  pose proof (nearestScaled_bounds (Qabs y) (Qabs_nonneg y)) as [Hy1 Hy2].
  cbn zeta in *. rewrite Hn in Hx1, Hx2.
  set (n := inject_Z (Z.of_N (nearestScaled 4 (Qabs y)))) in *.
  apply Qabs_Qlt_condition.
  destruct (Qltb x 0) eqn:Hx; destruct (Qltb y 0) eqn:Hy; try discriminate.
  - apply Qltb_lt in Hx, Hy.
    rewrite (Qabs_neg x) in Hx1, Hx2 by lra. rewrite (Qabs_neg y) in Hy1, Hy2 by lra.
    split; lra.
  - unfold Qltb in Hx, Hy. apply negb_false_iff in Hx, Hy.
    apply Qle_bool_iff in Hx, Hy.
    rewrite (Qabs_pos x) in Hx1, Hx2 by lra. rewrite (Qabs_pos y) in Hy1, Hy2 by lra.
    split; lra.
Qed.

End KeyDistance.

(** X17.  Two coordinate pairs (below [10^21] in magnitude) that share a cache
    key are less than [0.0001] apart in latitude and in longitude: a cached
    result is only ever reused for a point that close. *)
Theorem cacheKey_same_close :
  forall (E : Env) (lat1 lng1 lat2 lng2 : Q),
    small lat1 -> small lng1 -> small lat2 -> small lng2 ->
    OpenMeteo.cacheKey E lat1 lng1 = OpenMeteo.cacheKey E lat2 lng2 ->
    (Qabs (lat1 - lat2) < 1 # 10000 /\ Qabs (lng1 - lng2) < 1 # 10000)%Q.
Proof.
  intros E lat1 lng1 lat2 lng2 H1 H2 H3 H4 Hkey.
  unfold OpenMeteo.cacheKey in Hkey. change OpenMeteo.CACHE_ROUND_DIGITS with 4%nat in Hkey.
  apply cut_at_separator in Hkey; try now apply toFixed_no_comma.
  destruct Hkey as [Hlat Hlng].
  apply (toFixed_same E lat1 lat2 H1 H3) in Hlat.
  apply (toFixed_same E lng1 lng2 H2 H4) in Hlng.
  split; now apply rounded_close.
Qed.

Lemma cacheKey_same_close_witness :
  (Qabs (1 - (32767 # 32768)) < 1 # 10000 /\ Qabs (2 - 2) < 1 # 10000)%Q.
Proof.
  apply (cacheKey_same_close Sample.offline 1 2 (32767 # 32768) 2); reflexivity.
Defined.

(** ** use-cases/getProperties: the variant answering with a bare array *)

Section LeanFacts.

Import OpenMeteo.

Variable E : Env.
Variable c : GetProperties.Criteria.
Hypothesis valid :
  Forall (fun g => In g Weather.WEATHER_GROUP_KEYS) (GetProperties.weatherGroups c).

Lemma lean_attach_satisfies (w : World) (properties : list Property) (e : PropWeather) :
  In e (fst (fetchWeatherForProperties E w (GetProperties.toFetchOf properties))) ->
  GetProperties.passes c e = true ->
  leanRowSatisfies c (GetPropertiesLean.attach properties e).
Proof.
  intros He Hpass.
  pose proof (attach_satisfies E c valid w properties e He Hpass) as Hrich.
  unfold GetProperties.attach in Hrich. unfold GetPropertiesLean.attach.
  cbn [rowSatisfies leanRowSatisfies] in *.
  destruct (GetProperties.idToPropGet properties (w_id e)); [| contradiction].
  destruct (weather e) as [wr |]; [| contradiction].
  destruct (weatherError e); [contradiction |].
  destruct Hrich as [H1 [H2 [H3 [H4 [Hl Hg]]]]].
  split; [exact H1 |]. split; [exact H2 |]. split; [exact H3 |]. split; [exact H4 |].
  intros Hne. destruct (Hg Hne) as [g' [Hg' Hin]]. exists g'. split; [congruence | exact Hin].
Qed.

End LeanFacts.

(** X18.  The bare-array variant pages first and filters afterwards: for a
    whole page number [p] it makes exactly one datastore query, the page at
    [skip = (p-1)*take], and never a count.  Without weather filters the
    page is returned as it is; with them, the answer holds no more rows than
    the page, each of them with its weather, without error, and meeting
    every supplied bound and group. *)
Theorem lean_getProperties_page_then_filter :
  forall (E : Env) (w : OpenMeteo.World) (req : GetProperties.Request)
         (c : GetProperties.Criteria) (p : Z),
    GetProperties.normalize E req = Some c ->
    wholePage c p ->
    let skip := ((GetProperties.page c - 1) * inject_Z (GetProperties.take c))%Q in
    let properties := dbFindMany E (GetProperties.where_ c) skip (GetProperties.take c) in
    let answer := GetPropertiesLean.getProperties E w req in
    (skip == inject_Z ((p - 1) * GetProperties.take c))%Q
    /\ OpenMeteo.dbCalls (snd answer)
    = (OpenMeteo.dbCalls w
       ++ [OpenMeteo.FindMany (GetProperties.where_ c) skip (GetProperties.take c)])%list
    /\ (GetProperties.hasWeatherFilters c = false ->
        answer = (GetPropertiesLean.Json (map GetPropertiesLean.Plain properties),
                  OpenMeteo.logDb w (OpenMeteo.FindMany (GetProperties.where_ c) skip
                                                        (GetProperties.take c))))
    /\ (GetProperties.hasWeatherFilters c = true ->
        exists rows,
          fst answer = GetPropertiesLean.Json rows
          /\ (List.length rows <= List.length properties)%nat
          /\ Forall (leanRowSatisfies c) rows).
Proof.
  intros E w req c p Hnorm [Hp [Hpage Hsafe]] skip properties answer.
  split.
  { subst skip. rewrite Hpage, inject_Z_mult. unfold Z.sub.
    rewrite inject_Z_plus, inject_Z_opp. reflexivity. }
  assert (Hvalid : Forall (fun g => In g Weather.WEATHER_GROUP_KEYS)
                          (GetProperties.weatherGroups c)).
  { unfold GetProperties.normalize in Hnorm.
    destruct (Utils.parseWeatherGroups (GetProperties.q_weather req)) as [gs |] eqn:Hg;
      [| discriminate].
    injection Hnorm as <-. cbn [GetProperties.weatherGroups].
    eapply parseWeatherGroups_valid; eassumption. }
  subst answer. unfold GetPropertiesLean.getProperties. rewrite Hnorm. cbn zeta.
  fold skip. fold properties.
  set (q := OpenMeteo.FindMany (GetProperties.where_ c) skip (GetProperties.take c)).
  destruct (GetProperties.hasWeatherFilters c); cbn [negb].
  - split; [| split; [discriminate |]].
    + destruct (List.length (GetProperties.toFetchOf properties) =? 0)%nat; [reflexivity |].
      pose proof (fetchWeatherForProperties_db E (GetProperties.toFetchOf properties)
                                                 (OpenMeteo.logDb w q)) as Hdb.
      destruct (OpenMeteo.fetchWeatherForProperties E (OpenMeteo.logDb w q) _). exact Hdb.
    + intros _.
      destruct (List.length (GetProperties.toFetchOf properties) =? 0)%nat.
      { exists []. split; [reflexivity |]. split; [cbn; lia | constructor]. }
      pose proof (fetchWeatherForProperties_length E (GetProperties.toFetchOf properties)
                                                     (OpenMeteo.logDb w q)) as Hlen.
      pose proof (fun e => lean_attach_satisfies E c Hvalid (OpenMeteo.logDb w q) properties e)
        as Hsat.
      destruct (OpenMeteo.fetchWeatherForProperties E (OpenMeteo.logDb w q) _) as [pw w2].
      cbn [fst] in *. eexists. split; [reflexivity |]. split.
      * rewrite length_map.
        assert (Hf : (List.length (filter (GetProperties.passes c) pw) <= List.length pw)%nat)
          by apply filter_length_le.
        pose proof (toFetchOf_length properties) as Ht.
        lia.
      * apply Forall_forall. intros r Hr. apply in_map_iff in Hr.
        destruct Hr as [e [<- He]]. apply filter_In in He. destruct He as [He Hpass].
        now apply Hsat.
  - split; [reflexivity |]. split; [reflexivity | discriminate].
Qed.

Lemma lean_getProperties_page_then_filter_witness :
  (((2 - 1) * inject_Z 2)%Q == inject_Z ((2 - 1) * GetProperties.take Cases5.pageTwo))%Q
  /\ OpenMeteo.dbCalls (snd (GetPropertiesLean.getProperties Sample.townsEnv Sample.emptyWorld
                                                           Cases5.pageTwoRequest))
  = ([] ++ [OpenMeteo.FindMany None ((2 - 1) * inject_Z 2)%Q 2])%list
  /\ (GetProperties.hasWeatherFilters Cases5.pageTwo = false ->
      GetPropertiesLean.getProperties Sample.townsEnv Sample.emptyWorld Cases5.pageTwoRequest
      = (GetPropertiesLean.Json
           (map GetPropertiesLean.Plain
                (dbFindMany Sample.townsEnv None ((2 - 1) * inject_Z 2)%Q 2)),
         OpenMeteo.logDb Sample.emptyWorld
                         (OpenMeteo.FindMany None ((2 - 1) * inject_Z 2)%Q 2)))
  /\ (GetProperties.hasWeatherFilters Cases5.pageTwo = true ->
      exists rows,
        fst (GetPropertiesLean.getProperties Sample.townsEnv Sample.emptyWorld
                                             Cases5.pageTwoRequest)
        = GetPropertiesLean.Json rows
        /\ (List.length rows
            <= List.length (dbFindMany Sample.townsEnv None ((2 - 1) * inject_Z 2)%Q 2))%nat
        /\ Forall (leanRowSatisfies Cases5.pageTwo) rows).
Proof.
  apply (lean_getProperties_page_then_filter Sample.townsEnv Sample.emptyWorld
                                             Cases5.pageTwoRequest Cases5.pageTwo 2).
  - vm_compute. reflexivity.
  - split; [lia | split; [reflexivity | cbn; lia]].
Defined.

Example lean_getProperties_page_two :
  fst (GetPropertiesLean.getProperties Sample.townsEnv Sample.emptyWorld Cases5.pageTwoRequest)
  = GetPropertiesLean.Json
      [GetPropertiesLean.WithWeather
         (Some (Sample.row 3 (Some 3%Q) (Some 0%Q) "c"))
         (Some (OpenMeteo.mkWeatherResult (Some 12%Q) (Some 0%Q) None
                                          (Some "2024-03-01T10:00:00.000Z")))
         None].
Proof. vm_compute. reflexivity. Qed.

(** ** lib/weather: the filter sees the valid names as a set *)

Section MatchFacts.

Import Weather.

Lemma matches_true_iff (code : option Q) (gs : list string) :
  matchesWeatherGroup code (Some gs) = true <->
  validNames gs = []
  \/ exists c g, code = Some c /\ In g (validNames gs) /\ belongs c g.
Proof.
  unfold matchesWeatherGroup, validNames.
  destruct gs as [| g0 gs]; [split; [now left | reflexivity] |].
  destruct (filter (includes WEATHER_GROUP_KEYS) (g0 :: gs)) as [| v vs] eqn:Hf.
  - split; [now left | reflexivity].
  - destruct code as [c |].
    + rewrite existsb_exists. split.
      * intros [g [Hin Hhas]]. right. exists c, g.
        split; [reflexivity |]. split; [exact Hin | now apply groupHas_belongs].
      * intros [Habs | [c' [g [[= <-] [Hin Hb]]]]]; [discriminate |].
        exists g. split; [exact Hin | now apply groupHas_belongs].
    + split; [discriminate |]. intros [Habs | [c' [g [Habs _]]]]; discriminate.
Qed.

End MatchFacts.

(** X19.  [matchesWeatherGroup] depends on the requested list only through the
    set of valid names in it: unknown names, order and repetitions make no
    difference. *)
Theorem matchesWeatherGroup_set_of_valid_names :
  forall (code : option Q) (gs gs' : list string),
    (forall g, In g Weather.WEATHER_GROUP_KEYS -> (In g gs <-> In g gs')) ->
    Weather.matchesWeatherGroup code (Some gs) = Weather.matchesWeatherGroup code (Some gs').
Proof.
  intros code gs gs' Hsame.
  assert (Hvalid : forall g, In g (validNames gs) <-> In g (validNames gs')).
  { intros g. unfold validNames. rewrite !filter_In, includes_In.
    split; intros [Hin Hk]; (split; [now apply (Hsame g Hk) | exact Hk]). }
  assert (Hnil : validNames gs = [] <-> validNames gs' = []).
  { split; intros Hn.
    - destruct (validNames gs') as [| v vs] eqn:Hv; [reflexivity |].
      assert (Hin : In v (validNames gs)) by (apply Hvalid; rewrite ?Hv; now left).
      rewrite Hn in Hin. destruct Hin.
    - destruct (validNames gs) as [| v vs] eqn:Hv; [reflexivity |].
      assert (Hin : In v (validNames gs')) by (apply Hvalid; rewrite ?Hv; now left).
      rewrite Hn in Hin. destruct Hin. }
  assert (Hiff : Weather.matchesWeatherGroup code (Some gs) = true <->
                 Weather.matchesWeatherGroup code (Some gs') = true).
  { rewrite !matches_true_iff, Hnil. split.
    - intros [H | [c [g [Hc [Hin Hb]]]]]; [now left | right].
      exists c, g. split; [exact Hc |]. split; [now apply Hvalid | exact Hb].
    - intros [H | [c [g [Hc [Hin Hb]]]]]; [now left | right].
      exists c, g. split; [exact Hc |]. split; [now apply Hvalid | exact Hb]. }
  destruct (Weather.matchesWeatherGroup code (Some gs)),
           (Weather.matchesWeatherGroup code (Some gs')); try reflexivity.
  - symmetry. now apply Hiff.
  - now apply Hiff.
Qed.

Lemma matchesWeatherGroup_set_of_valid_names_witness :
  Weather.matchesWeatherGroup (Some 71%Q) (Some ["snow"; "hail"; "clear"])
  = Weather.matchesWeatherGroup (Some 71%Q) (Some ["clear"; "snow"; "snow"]).
Proof.
  apply (matchesWeatherGroup_set_of_valid_names (Some 71%Q) ["snow"; "hail"; "clear"]
                                                ["clear"; "snow"; "snow"]).
  intros g Hg. cbn in Hg |- *.
  destruct Hg as [<- | [<- | [<- | [<- | [<- | []]]]]];
    split; intros H; repeat (destruct H as [H | H]; try discriminate H); tauto.
Defined.

(** ** use-cases/getProperties: how much work one request does *)

Section WorkFacts.

Import OpenMeteo GetProperties.

Lemma fetchWeatherForProperties_upstream (E : Env) (props : list PropRef) :
  forall w,
    (List.length (upstreamCalls (snd (fetchWeatherForProperties E w props)))
     <= List.length (upstreamCalls w) + List.length props)%nat.
Proof.
  induction props as [| p rest IH]; intros w; cbn [fetchWeatherForProperties];
    [cbn; lia |].
  destruct (fetchWeather E w (r_lat p) (r_lng p)) as [o w1] eqn:Hf.
  destruct (fetchWeather_effects E w w1 _ _ o Hf) as [_ [Hup _]].
  specialize (IH w1). destruct (fetchWeatherForProperties E w1 rest) as [es w2].
  cbn [snd List.length] in *.
  destruct Hup as [Hup | Hup]; rewrite Hup in IH; [| rewrite length_app in IH; cbn in IH]; lia.
Qed.

Variable E : Env.
Variable c : Criteria.
Variable rows : list Property.
Hypothesis table :
  forall n : nat,
    dbFindMany E (where_ c) (inject_Z (Z.of_nat n)) (Z.of_nat BATCH_SIZE)
    = firstn BATCH_SIZE (skipn n rows).

Lemma scan_work (fuel : nat) :
  forall (w w' : World) (filtered res : list Row) (totalChecked : nat) (hasMore : bool),
    (totalChecked <= List.length rows)%nat ->
    scan E fuel c w filtered totalChecked hasMore = Some (res, w') ->
    (List.length (upstreamCalls w')
     <= List.length (upstreamCalls w) + (List.length rows - totalChecked))%nat
    /\ (List.length res <= List.length filtered + (List.length rows - totalChecked))%nat.
Proof.
  induction fuel as [| fuel IH]; intros w w' filtered res tc hasMore Hle; cbn [scan].
  - destruct (hasMore && Qltb _ _); [discriminate |]. intros [= <- <-]. lia.
  - destruct (hasMore && Qltb _ _); [| intros [= <- <-]; lia].
    rewrite table.
    set (dbBatch := firstn BATCH_SIZE (skipn tc rows)).
    assert (Hlen : (tc + List.length dbBatch <= List.length rows)%nat).
    { subst dbBatch. rewrite length_firstn, length_skipn. lia. }
    destruct (List.length dbBatch =? 0)%nat; [intros [= <- <-]; cbn; lia |].
    destruct (List.length (toFetchOf dbBatch) =? 0)%nat.
    + intros Hscan. apply IH in Hscan; [| lia]. destruct Hscan as [H1 H2].
      cbn [logDb upstreamCalls] in H1. lia.
    + pose proof (fetchWeatherForProperties_upstream E (toFetchOf dbBatch)
                    (logDb w (FindMany (where_ c) (inject_Z (Z.of_nat tc))
                                       (Z.of_nat BATCH_SIZE)))) as Hup.
      pose proof (fetchWeatherForProperties_length E (toFetchOf dbBatch)
                    (logDb w (FindMany (where_ c) (inject_Z (Z.of_nat tc))
                                       (Z.of_nat BATCH_SIZE)))) as Hent.
      pose proof (toFetchOf_length dbBatch) as Hfetch.
      destruct (fetchWeatherForProperties E _ (toFetchOf dbBatch)) as [pw w2].
      cbn [snd fst logDb upstreamCalls] in Hup, Hent.
      intros Hscan. apply IH in Hscan; [| lia]. destruct Hscan as [H1 H2].
      rewrite length_app, length_map in H2.
      pose proof (filter_length_le (passes c) pw) as Hf. lia.
Qed.

End WorkFacts.

(** X20.  On a finite table a request with weather filters costs at most one
    upstream request per table row, and the [data] of its answer never holds
    more rows than the table. *)
Theorem getProperties_bounded_work :
  forall (E : Env) (fuel : nat) (w : OpenMeteo.World) (req : GetProperties.Request)
         (c : GetProperties.Criteria) (rows : list Property),
    GetProperties.normalize E req = Some c ->
    (forall n : nat,
       dbFindMany E (GetProperties.where_ c) (inject_Z (Z.of_nat n))
                  (Z.of_nat GetProperties.BATCH_SIZE)
       = firstn GetProperties.BATCH_SIZE (skipn n rows)) ->
    GetProperties.hasWeatherFilters c = true ->
    (List.length (OpenMeteo.upstreamCalls
                    (worldAfter w (GetProperties.getProperties E fuel w req)))
     <= List.length (OpenMeteo.upstreamCalls w) + List.length rows)%nat
    /\ (List.length (dataOf (responseOf (GetProperties.getProperties E fuel w req)))
        <= List.length rows)%nat.
Proof.
  intros E fuel w req c rows Hnorm Htable Hfilters.
  unfold GetProperties.getProperties. rewrite Hnorm, Hfilters. cbn [negb].
  destruct (GetProperties.scan E fuel c w [] 0 true) as [[filtered w'] |] eqn:Hscan.
  - destruct (scan_work E c rows Htable fuel w w' [] filtered 0%nat true ltac:(lia) Hscan)
      as [H1 H2].
    cbn [worldAfter responseOf dataOf GetProperties.paginate List.length] in *.
    split; [lia |].
    assert (Hs : forall (l : list GetProperties.Row) a b,
               (List.length (GetProperties.slice l a b) <= List.length l)%nat).
    { intros l a b. unfold GetProperties.slice. rewrite length_firstn, length_skipn. lia. }
    specialize (Hs filtered). etransitivity; [apply Hs | lia].
  - cbn. lia.
Qed.

Lemma getProperties_bounded_work_witness :
  (List.length (OpenMeteo.upstreamCalls
                  (worldAfter Sample.emptyWorld
                     (GetProperties.getProperties Sample.townsEnv 4 Sample.emptyWorld
                                                  Sample.mildAndClearRequest)))
   <= List.length (OpenMeteo.upstreamCalls Sample.emptyWorld)
      + List.length Cases4.townRows)%nat
  /\ (List.length (dataOf (responseOf
                     (GetProperties.getProperties Sample.townsEnv 4 Sample.emptyWorld
                                                  Sample.mildAndClearRequest)))
      <= List.length Cases4.townRows)%nat.
Proof.
  apply (getProperties_bounded_work Sample.townsEnv 4 Sample.emptyWorld
                                    Sample.mildAndClearRequest Cases4.mildAndClear
                                    Cases4.townRows).
  - vm_compute. reflexivity.
  - intros n. apply (sample_env_table Cases4.townRows).
  - reflexivity.
Defined.

(** ** lib/openMeteo: the bulk fetcher under its concurrency limit *)

Section ConcurrentSteps.

Import OpenMeteo Concurrent.

Variable E : Env.

(** [fetchWeather] is the start of a task followed at once by the answer. *)
Lemma fetchWeather_start_finish (w : World) (lat lng : Q) :
  fetchWeather E w lat lng
  = match cacheGet (cache w) (cacheKey E lat lng) with
    | Some cached => (inr cached, w)
    | None =>
        (responseOutcome E lat lng,
         match responseOutcome E lat lng with
         | inr result => cacheSet (logUpstream w lat lng) (cacheKey E lat lng) result
         | inl _ => logUpstream w lat lng
         end)
    end.
Proof.
  unfold fetchWeather, responseOutcome, weatherOf.
  destruct (cacheGet (cache w) (cacheKey E lat lng)); [reflexivity |].
  destruct (upstream E lat lng); reflexivity.
Qed.












End ConcurrentSteps.

Section ConcurrentInvariant.

Import OpenMeteo Concurrent.

Variable E : Env.
Variable w0 : World.
Variable props : list PropRef.






End ConcurrentInvariant.

Section Isolation.

Import OpenMeteo Concurrent.


Variable E : Env.
Variable w0 : World.
Variable props : list PropRef.



End Isolation.





Example sixth_entry_depends_on_first :
  option_map (fun r => nth_error (map (fun e => option_map OpenMeteo.temperature
                                                 (OpenMeteo.weather e)) (fst r)) 5)
             (Concurrent.fetchWeatherForProperties Sample.flakyEnv 5 [] Sample.emptyWorld
                                                   Cases7.sixRequests)
  = Some (Some (Some (Some (1300001 # 100000))))
  /\ option_map (fun r => nth_error (map (fun e => option_map OpenMeteo.temperature
                                                    (OpenMeteo.weather e)) (fst r)) 5)
                (Concurrent.fetchWeatherForProperties
                   (withUpstream Sample.flakyEnv Cases7.steady) 5 [] Sample.emptyWorld
                   Cases7.sixRequests)
     = Some (Some (Some (Some 13%Q))).
Proof. split; vm_compute; reflexivity. Qed.

(** ** A limit of one is the sequential run *)

Section OneAtATime.

Import OpenMeteo Concurrent.

Variable E : Env.

Lemma inFlight_done (done l : list Slot) :
  Forall (fun s => exists o, snd s = Done o) done ->
  inFlight (done ++ l) = inFlight l.
Proof.
  induction 1 as [| [p st] done [o Ho] _ IH]; [reflexivity |].
  cbn in Ho. subst st. cbn [app inFlight]. exact IH.
Qed.

Lemma startNext_done (w : World) (done l : list Slot) :
  Forall (fun s => exists o, snd s = Done o) done ->
  startNext E w (done ++ l)
  = match startNext E w l with
    | Some (l', w') => Some ((done ++ l')%list, w')
    | None => None
    end.
Proof.
  induction 1 as [| [p st] done [o Ho] _ IH].
  - cbn [app]. destruct (startNext E w l) as [[l' w'] |]; reflexivity.
  - cbn in Ho. subst st. cbn [app startNext]. rewrite IH.
    destruct (startNext E w l) as [[l' w'] |]; reflexivity.
Qed.

Lemma finishAt_done (w : World) (k : nat) (done l : list Slot) :
  Forall (fun s => exists o, snd s = Done o) done ->
  finishAt E w k (done ++ l)
  = match finishAt E w k l with
    | Some (l', w') => Some ((done ++ l')%list, w')
    | None => None
    end.
Proof.
  induction 1 as [| [p st] done [o Ho] _ IH].
  - cbn [app]. destruct (finishAt E w k l) as [[l' w'] |]; reflexivity.
  - cbn in Ho. subst st. cbn [app finishAt]. rewrite IH.
    destruct (finishAt E w k l) as [[l' w'] |]; reflexivity.
Qed.

Lemma inFlight_pending (props : list PropRef) :
  inFlight (map (fun p => (p, Pending)) props) = O.
Proof. induction props as [| p rest IH]; [reflexivity | exact IH]. Qed.

Lemma finishAt_pending (w : World) (k : nat) (props : list PropRef) :
  finishAt E w k (map (fun p => (p, Pending)) props) = None.
Proof.
  induction props as [| p rest IH]; [reflexivity |].
  cbn [map finishAt]. rewrite IH. reflexivity.
Qed.

Lemma finishNext_single (w : World) (schedule : list nat) (done : list Slot)
      (p : PropRef) (rest : list PropRef) :
  Forall (fun s => exists o, snd s = Done o) done ->
  finishNext E w schedule (done ++ (p, InFlight) :: map (fun p => (p, Pending)) rest)
  = Some ((done ++ (p, Done (responseOutcome E (r_lat p) (r_lng p)))
                :: map (fun p => (p, Pending)) rest)%list,
          match responseOutcome E (r_lat p) (r_lng p) with
          | inr result => cacheSet w (keyOf E p) result
          | inl _ => w
          end).
Proof.
  intros Hdone. unfold finishNext. rewrite !finishAt_done by exact Hdone.
  cbn [finishAt]. destruct (hd O schedule) as [| k]; [reflexivity |].
  rewrite finishAt_pending. reflexivity.
Qed.

Lemma run_one_at_a_time (rest : list PropRef) :
  forall (done : list Slot) (w : World) (schedule : list nat) (fuel : nat),
    Forall (fun s => exists o, snd s = Done o) done ->
    (2 * List.length rest + 1 <= fuel)%nat ->
    exists slots,
      run E fuel 1 schedule w (done ++ map (fun p => (p, Pending)) rest)
      = Some ((done ++ slots)%list, snd (OpenMeteo.fetchWeatherForProperties E w rest))
      /\ entriesOf slots = Some (fst (OpenMeteo.fetchWeatherForProperties E w rest)).
Proof.
  induction rest as [| p rest IH]; intros done w schedule fuel Hdone Hfuel.
  - exists []. split; [| reflexivity].
    destruct fuel as [| fuel]; [cbn in Hfuel; lia |].
    cbn [run map]. rewrite inFlight_done by exact Hdone. cbn [inFlight Nat.ltb Nat.leb].
    rewrite startNext_done by exact Hdone. cbn [startNext].
    unfold finishNext. rewrite !finishAt_done by exact Hdone. cbn [finishAt].
    reflexivity.
  - destruct fuel as [| fuel]; [cbn in Hfuel; lia |].
    cbn [List.length] in Hfuel.
    cbn [run map]. rewrite inFlight_done by exact Hdone.
    cbn [inFlight]. rewrite inFlight_pending. cbn [Nat.ltb Nat.leb].
    rewrite startNext_done by exact Hdone. cbn [startNext].
    cbn [OpenMeteo.fetchWeatherForProperties]. rewrite fetchWeather_start_finish.
    unfold keyOf at 1.
    destruct (cacheGet (cache w) (cacheKey E (r_lat p) (r_lng p))) as [cached |] eqn:Hc.
    + destruct (IH (done ++ [(p, Done (inr cached))])%list w schedule fuel)
        as [slots [Hrun Hent]].
      * apply Forall_app. split; [exact Hdone |].
        constructor; [eexists; reflexivity | constructor].
      * lia.
      * rewrite <- !app_assoc in Hrun. cbn [app] in Hrun.
        exists ((p, Done (inr cached)) :: slots).
        destruct (OpenMeteo.fetchWeatherForProperties E w rest) as [entries w2].
        cbn [fst snd] in *. split.
        -- exact Hrun.
        -- cbn [entriesOf]. rewrite Hent. reflexivity.
    + destruct fuel as [| fuel]; [lia |].
      cbn [run]. rewrite inFlight_done by exact Hdone.
      cbn [inFlight]. rewrite inFlight_pending. cbn [Nat.ltb Nat.leb].
      rewrite finishNext_single by exact Hdone.
      set (o := responseOutcome E (r_lat p) (r_lng p)).
      set (w1 := match o with
                 | inr result => cacheSet (logUpstream w (r_lat p) (r_lng p)) (keyOf E p) result
                 | inl _ => logUpstream w (r_lat p) (r_lng p)
                 end).
      destruct (IH (done ++ [(p, Done o)])%list w1 (tl schedule) fuel)
        as [slots [Hrun Hent]].
      * apply Forall_app. split; [exact Hdone |].
        constructor; [eexists; reflexivity | constructor].
      * lia.
      * rewrite <- !app_assoc in Hrun. cbn [app] in Hrun.
        exists ((p, Done o) :: slots).
        fold o. change (match o with
                        | inr result =>
                            cacheSet (logUpstream w (r_lat p) (r_lng p))
                                     (cacheKey E (r_lat p) (r_lng p)) result
                        | inl _ => logUpstream w (r_lat p) (r_lng p)
                        end) with w1.
        destruct (OpenMeteo.fetchWeatherForProperties E w1 rest) as [entries w2].
        cbn [fst snd] in *. split.
        -- exact Hrun.
        -- cbn [entriesOf]. rewrite Hent. reflexivity.
Qed.

(** Under a limit of one the calls do not overlap, and the concurrent run
    is the sequential [OpenMeteo.fetchWeatherForProperties], whatever the
    schedule. *)
Lemma concurrent_limit_one (schedule : list nat) (w : World) (props : list PropRef) :
  Concurrent.fetchWeatherForProperties E 1 schedule w props
  = Some (OpenMeteo.fetchWeatherForProperties E w props).
Proof.
  unfold Concurrent.fetchWeatherForProperties.
  destruct (run_one_at_a_time props [] w schedule (2 * List.length props + 1))
    as [slots [Hrun Hent]]; [constructor | lia |].
  cbn [app] in Hrun. rewrite Hrun, Hent.
  destruct (OpenMeteo.fetchWeatherForProperties E w props); reflexivity.
Qed.

End OneAtATime.
